(** * The ServiceEntry registry of Pilot

    A shallow embedding of
    [pilot/pkg/serviceregistry/external/servicediscovery.go]: the
    [ServiceEntryStore], its dirty-flag rebuild ([update]), the event handler
    installed by [NewServiceDiscovery] and the query methods.

    Go maps are [gmap]s, Go slices are lists (see the remark at [update] on
    the one place where two slices can share storage), [int] is [Z].  A method
    of the store is a computation in the monad [M]: it threads the receiver
    [d], can come to a halt on the read/write mutex, and leaves a trace of the
    steps other goroutines can see. *)

From Stdlib Require Import ZArith.
From stdpp Require Import gmap strings list fin_maps.

(** ** Data model (package [model]) *)

Abbreviation Labels := (gmap string string).
Abbreviation LabelsCollection := (list (gmap string string)).

(** [model.Hostname] is a named string type; [String()] is the conversion. *)
Definition Hostname_String (h : string) : string := h.

Record Port := {
  Port_Name : string;
  Port_Port : Z }.

Record NetworkEndpoint := {
  Endpoint_Address : string;
  Endpoint_Port : Z;
  Endpoint_ServicePort : Port }.

Record ServiceAttributes := {
  Attr_Name : string;
  Attr_Namespace : string }.

(** Modelled from the spec: [model.Service] is declared in package [model],
    outside this file; of its fields the registry reads [Hostname] only.  The
    spec's data model: a service is identified by its hostname and carries
    attributes (name, namespace). *)
Record Service := {
  Service_Hostname : string;
  Service_Attributes : ServiceAttributes }.

Record ServiceInstance := {
  Instance_Endpoint : NetworkEndpoint;
  Instance_Service : Service;
  Instance_Labels : Labels }.

Record Proxy := { IPAddress : string }.

Abbreviation hostOf instance := (Service_Hostname (Instance_Service instance)).
Abbreviation addressOf instance := (Endpoint_Address (Instance_Endpoint instance)).

Inductive Event := EventAdd | EventUpdate | EventDelete.

(** Modelled from the spec: [Labels.SubsetOf] is declared in package [model].
    A label set [l] matches [that] when every key of [l] is present in [that]
    with an equal value. *)
Definition SubsetOf (l that : Labels) : bool :=
  forallb (fun kv => bool_decide (that !! kv.1 = Some kv.2)) (map_to_list l).

(** Modelled from the spec: [LabelsCollection.HasSubsetOf] is declared in
    package [model].  The spec gives the match of one requested label set and
    lets an empty request match every instance; the comments of [Instances]
    and [InstancesByPort] say the same of the collection: instances match any
    of the supplied labels, and all instances match an empty list. *)
Definition HasSubsetOf (labels : LabelsCollection) (that : Labels) : bool :=
  match labels with
  | [] => true
  | _ => existsb (fun l => SubsetOf l that) labels
  end.

(** [sync.RWMutex], as far as one goroutine after another can tell: the
    number of shared holds and whether the exclusive hold is taken. *)
Record RWMutex := {
  readers : nat;
  writer : bool }.

Definition unlocked : RWMutex := {| readers := 0; writer := false |}.

(** [time.Time] *)
Definition Time := Z.

(** What the event-handler registration leaves behind in the
    [model.ConfigStoreCache]. *)
Record ConfigStoreCache := { handlerRegistered : bool }.

Section Registry.

(** The conversion boundary ([convertServices], [convertInstances] of
    conversion.go) and the raw record it reads are parameters, and so are the
    two kinds of callbacks, which the registry only stores and spawns. *)
Context {ServiceEntry : Type}.
Context (convertServices : ServiceEntry -> list Service).
Context (convertInstances : ServiceEntry -> list ServiceInstance).
Context {serviceHandler instanceHandler : Type}.

(** [model.Config], restricted to what is read: the spec and the namespace of
    its metadata. *)
Record Config := {
  Spec : ServiceEntry;
  Namespace : string }.

(** [ServiceEntryStore].  [store] holds what [d.store.ServiceEntries()]
    currently enumerates; the configuration store changes it from outside. *)
Record ServiceEntryStore := {
  serviceHandlers : list serviceHandler;
  instanceHandlers : list instanceHandler;
  store : list Config;
  callbacks : option ConfigStoreCache;
  storeMutex : RWMutex;
  ip2instance : gmap string (list ServiceInstance);
  instances : gmap string (list ServiceInstance);
  lastChange : Time;
  updateNeeded : bool }.

(** ** Effects *)

(** The steps of a method that another goroutine can observe: operations on
    [storeMutex], accesses to [updateNeeded], enumerations of the store and
    spawned handler goroutines. *)
Inductive Op :=
| OpRLock
| OpRUnlock
| OpLock
| OpUnlock
| OpReadUpdateNeeded (b : bool)
| OpWriteUpdateNeeded (b : bool)
| OpServiceEntries
| OpGoService (h : serviceHandler) (s : Service) (e : Event)
| OpGoInstance (h : instanceHandler) (i : ServiceInstance) (e : Event).

(** Why a call does not return when no other goroutine is there to help:
    it waits for the mutex for ever, or the runtime aborts on an unlock of an
    unlocked mutex. *)
Inductive Halt := Deadlock | FatalUnlock.

Inductive Outcome (A : Type) :=
| Done (a : A) (d : ServiceEntryStore) (tr : list Op)
| Halted (why : Halt) (tr : list Op).
Arguments Done {A} a d tr.
Arguments Halted {A} why tr.

Definition M (A : Type) : Type := ServiceEntryStore -> Outcome A.

#[global] Instance M_ret : MRet M := fun A a d => Done a d [].

#[global] Instance M_bind : MBind M := fun A B f m d =>
  match m d with
  | Done a d1 tr1 =>
      match f a d1 with
      | Done b d2 tr2 => Done b d2 (tr1 ++ tr2)
      | Halted why tr2 => Halted why (tr1 ++ tr2)
      end
  | Halted why tr1 => Halted why tr1
  end.

Definition get {A} (f : ServiceEntryStore -> A) : M A := fun d => Done (f d) d [].

Definition emit (o : Op) : M unit := fun d => Done tt d [o].

Definition halt {A} (why : Halt) : M A := fun _ => Halted why [].

Definition set_serviceHandlers (hs : list serviceHandler) : M unit := fun d =>
  Done tt {| serviceHandlers := hs;
             instanceHandlers := instanceHandlers d;
             store := store d;
             callbacks := callbacks d;
             storeMutex := storeMutex d;
             ip2instance := ip2instance d;
             instances := instances d;
             lastChange := lastChange d;
             updateNeeded := updateNeeded d |} [].

Definition set_instanceHandlers (hs : list instanceHandler) : M unit := fun d =>
  Done tt {| serviceHandlers := serviceHandlers d;
             instanceHandlers := hs;
             store := store d;
             callbacks := callbacks d;
             storeMutex := storeMutex d;
             ip2instance := ip2instance d;
             instances := instances d;
             lastChange := lastChange d;
             updateNeeded := updateNeeded d |} [].

Definition set_storeMutex (mu : RWMutex) : M unit := fun d =>
  Done tt {| serviceHandlers := serviceHandlers d;
             instanceHandlers := instanceHandlers d;
             store := store d;
             callbacks := callbacks d;
             storeMutex := mu;
             ip2instance := ip2instance d;
             instances := instances d;
             lastChange := lastChange d;
             updateNeeded := updateNeeded d |} [].

Definition set_ip2instance (m : gmap string (list ServiceInstance)) : M unit := fun d =>
  Done tt {| serviceHandlers := serviceHandlers d;
             instanceHandlers := instanceHandlers d;
             store := store d;
             callbacks := callbacks d;
             storeMutex := storeMutex d;
             ip2instance := m;
             instances := instances d;
             lastChange := lastChange d;
             updateNeeded := updateNeeded d |} [].

Definition set_instances (m : gmap string (list ServiceInstance)) : M unit := fun d =>
  Done tt {| serviceHandlers := serviceHandlers d;
             instanceHandlers := instanceHandlers d;
             store := store d;
             callbacks := callbacks d;
             storeMutex := storeMutex d;
             ip2instance := ip2instance d;
             instances := m;
             lastChange := lastChange d;
             updateNeeded := updateNeeded d |} [].

Definition set_lastChange (t : Time) : M unit := fun d =>
  Done tt {| serviceHandlers := serviceHandlers d;
             instanceHandlers := instanceHandlers d;
             store := store d;
             callbacks := callbacks d;
             storeMutex := storeMutex d;
             ip2instance := ip2instance d;
             instances := instances d;
             lastChange := t;
             updateNeeded := updateNeeded d |} [].

Definition set_updateNeeded (b : bool) : M unit := fun d =>
  Done tt {| serviceHandlers := serviceHandlers d;
             instanceHandlers := instanceHandlers d;
             store := store d;
             callbacks := callbacks d;
             storeMutex := storeMutex d;
             ip2instance := ip2instance d;
             instances := instances d;
             lastChange := lastChange d;
             updateNeeded := b |} [OpWriteUpdateNeeded b].

Definition read_updateNeeded : M bool := fun d =>
  Done (updateNeeded d) d [OpReadUpdateNeeded (updateNeeded d)].

(** [for _, x := range xs { body }] *)
Fixpoint forRange {A} (xs : list A) (body : A -> M unit) : M unit :=
  match xs with
  | [] => mret tt
  | x :: xs' => body x ;; forRange xs' body
  end.

(** *** The mutex *)

Definition RLock : M unit :=
  mu ← get storeMutex;
  if writer mu then halt Deadlock
  else set_storeMutex {| readers := S (readers mu); writer := false |} ;; emit OpRLock.

Definition RUnlock : M unit :=
  mu ← get storeMutex;
  match readers mu with
  | O => halt FatalUnlock
  | S n => set_storeMutex {| readers := n; writer := writer mu |} ;; emit OpRUnlock
  end.

Definition Lock : M unit :=
  mu ← get storeMutex;
  if writer mu then halt Deadlock
  else match readers mu with
       | O => set_storeMutex {| readers := 0; writer := true |} ;; emit OpLock
       | S _ => halt Deadlock
       end.

Definition Unlock : M unit :=
  mu ← get storeMutex;
  if writer mu then set_storeMutex {| readers := readers mu; writer := false |} ;; emit OpUnlock
  else halt FatalUnlock.

(** [d.store.ServiceEntries()] *)
Definition ServiceEntries : M (list Config) :=
  emit OpServiceEntries ;; get store.

(** ** The rebuild *)

(** [update] iterates all ServiceEntries, converts them to ServiceInstances
    and populates the 'by host' and 'by ip' maps.

    On slices: each by-host slice is built by [append] from the empty slice
    and stored back under its key, and no write ever lands inside the part of
    an array that a by-host slice shows, so [instances] is a map to lists.
    The slice stored in [d.ip2instance] starts from [d.instances[address]].
    When no hostname equals the address that lookup finds nothing and the
    stored slice is a fresh one; otherwise it can share its array with the
    by-host slice of that key, and its last element is then at the mercy of
    the next [append] under that key.  The list below gives its length in
    every case and its elements in the first. *)
Definition update : M unit :=
  RLock ;;
  needed ← read_updateNeeded;
  if negb needed then mret tt
  else
    RUnlock ;;
    Lock ;;
    set_instances ∅ ;;
    set_ip2instance ∅ ;;
    configs ← ServiceEntries;
    forRange configs (fun config =>
      let serviceEntry := Spec config in
      forRange (convertInstances serviceEntry) (fun instance =>
        let key := Hostname_String (Service_Hostname (Instance_Service instance)) in
        m ← get instances;
        let out := match m !! key with Some out => out | None => [] end in
        let out := out ++ [instance] in
        set_instances (<[key := out]> m) ;;
        m ← get instances;
        let address := Endpoint_Address (Instance_Endpoint instance) in
        let byip := match m !! address with Some byip => byip | None => [] end in
        let byip := byip ++ [instance] in
        ip ← get ip2instance;
        set_ip2instance (<[address := byip]> ip))) ;;
    Unlock.

(** ** Construction and the event handler *)

(** The function [NewServiceDiscovery] registers with [callbacks] for
    ServiceEntry events.  [now] is the value of [time.Now()]. *)
Definition eventHandler (now : Time) (config : Config) (event : Event) : M unit :=
  let serviceEntry := Spec config in
  Lock ;;
  set_lastChange now ;;
  set_updateNeeded true ;;
  Unlock ;;
  let services := convertServices serviceEntry in
  handlers ← get serviceHandlers;
  forRange handlers (fun handler =>
    forRange services (fun service =>
      emit (OpGoService handler service event))) ;;
  let instances := convertInstances serviceEntry in
  handlers ← get instanceHandlers;
  forRange handlers (fun handler =>
    forRange instances (fun instance =>
      emit (OpGoInstance handler instance event))).

Definition NewServiceDiscovery (callbacks : option ConfigStoreCache) (store : list Config)
  : ServiceEntryStore :=
  {| serviceHandlers := [];
     instanceHandlers := [];
     store := store;
     callbacks :=
       match callbacks with
       | Some _ => Some {| handlerRegistered := true |}
       | None => None
       end;
     storeMutex := unlocked;
     ip2instance := ∅;
     instances := ∅;
     lastChange := 0%Z;
     updateNeeded := true |}.

(** A Go [error] is its message. *)
Definition error := string.

Definition AppendServiceHandler (f : serviceHandler) : M (option error) :=
  hs ← get serviceHandlers;
  set_serviceHandlers (hs ++ [f]) ;;
  mret None.

Definition AppendInstanceHandler (f : instanceHandler) : M (option error) :=
  hs ← get instanceHandlers;
  set_instanceHandlers (hs ++ [f]) ;;
  mret None.

(** ** Queries on the store's enumeration *)

Definition Services : M (list Service * option error) :=
  configs ← ServiceEntries;
  let services :=
    fold_left (fun services config => services ++ convertServices (Spec config)) configs [] in
  mret (services, None).

Definition getServices : M (list Service) :=
  configs ← ServiceEntries;
  mret (fold_left (fun services config => services ++ convertServices (Spec config)) configs []).

(** The loop of [GetService]: the first service of that hostname ends it. *)
Fixpoint GetService_loop (hostname : string) (services : list Service)
  : option Service * option error :=
  match services with
  | [] => (None, None)
  | service :: rest =>
      if bool_decide (Service_Hostname service = hostname) then (Some service, None)
      else GetService_loop hostname rest
  end.

Definition GetService (hostname : string) : M (option Service * option error) :=
  services ← getServices;
  mret (GetService_loop hostname services).

(** The inner loop of [GetServiceAttributes] over the services of one
    config: whether it returns. *)
Fixpoint GetServiceAttributes_inner (hostname : string) (svcs : list Service) : bool :=
  match svcs with
  | [] => false
  | s :: rest =>
      if bool_decide (Service_Hostname s = hostname) then true
      else GetServiceAttributes_inner hostname rest
  end.

Fixpoint GetServiceAttributes_loop (hostname : string) (configs : list Config)
  : option ServiceAttributes * option error :=
  match configs with
  | [] => (None, Some "service not found"%string)
  | config :: rest =>
      let svcs := convertServices (Spec config) in
      if GetServiceAttributes_inner hostname svcs
      then (Some {| Attr_Name := Hostname_String hostname;
                    Attr_Namespace := Namespace config |}, None)
      else GetServiceAttributes_loop hostname rest
  end.

Definition GetServiceAttributes (hostname : string)
  : M (option ServiceAttributes * option error) :=
  configs ← ServiceEntries;
  mret (GetServiceAttributes_loop hostname configs).

Definition ManagementPorts (addr : string) : M (list Port) := mret [].

(** returns true if an instance's port matches with any in the provided list *)
Definition portMatchEnvoyV1 (instance : ServiceInstance) (portMap : gmap string bool) : bool :=
  bool_decide (size portMap = 0)
  || default false (portMap !! Port_Name (Endpoint_ServicePort (Instance_Endpoint instance))).

(** returns true if an instance's port matches with any in the provided list *)
Definition portMatchSingle (instance : ServiceInstance) (port : Z) : bool :=
  bool_decide (port = 0%Z)
  || bool_decide (port = Port_Port (Endpoint_ServicePort (Instance_Endpoint instance))).

Definition Instances (hostname : string) (ports : list string) (labels : LabelsCollection)
  : M (list ServiceInstance * option error) :=
  let portMap := fold_left (fun portMap port => <[port := true]> portMap) ports ∅ in
  configs ← ServiceEntries;
  let out :=
    fold_left (fun out config =>
      let serviceEntry := Spec config in
      fold_left (fun out instance =>
        if bool_decide (Service_Hostname (Instance_Service instance) = hostname)
           && HasSubsetOf labels (Instance_Labels instance)
           && portMatchEnvoyV1 instance portMap
        then out ++ [instance] else out)
        (convertInstances serviceEntry) out)
      configs [] in
  mret (out, None).

(** ** Queries on the index *)

Definition InstancesByPort (hostname : string) (port : Z) (labels : LabelsCollection)
  : M (list ServiceInstance * option error) :=
  update ;;
  RLock ;;
  m ← get instances;
  let out :=
    match m !! Hostname_String hostname with
    | Some instances =>
        fold_left (fun out instance =>
          if bool_decide (Service_Hostname (Instance_Service instance) = hostname)
             && HasSubsetOf labels (Instance_Labels instance)
             && portMatchSingle instance port
          then out ++ [instance] else out)
          instances []
    | None => []
    end in
  RUnlock ;;
  mret (out, None).

Definition GetProxyServiceInstances (node : Proxy)
  : M (list ServiceInstance * option error) :=
  update ;;
  RLock ;;
  ip ← get ip2instance;
  let result :=
    match ip !! IPAddress node with
    | Some instances => (instances, None)
    | None => ([], None)
    end in
  RUnlock ;;
  mret result.

Definition GetIstioServiceAccounts (hostname : string) (ports : list string) : M (list string) :=
  mret [].

(** [Run] has an empty body. *)
Definition Run : M unit := mret tt.

(** ** What the configuration store does from outside *)

(** The enumeration changes; whether a notification follows is up to the
    store. *)
Definition storeChanges (configs : list Config) : M unit := fun d =>
  Done tt {| serviceHandlers := serviceHandlers d;
             instanceHandlers := instanceHandlers d;
             store := configs;
             callbacks := callbacks d;
             storeMutex := storeMutex d;
             ip2instance := ip2instance d;
             instances := instances d;
             lastChange := lastChange d;
             updateNeeded := updateNeeded d |} [].

(** ** Reading the loops as functions *)

(** All instances of an enumeration, in conversion output order. *)
Definition allInstances (configs : list Config) : list ServiceInstance :=
  flat_map (fun config => convertInstances (Spec config)) configs.

Definition allServices (configs : list Config) : list Service :=
  flat_map (fun config => convertServices (Spec config)) configs.

(** One turn of the inner loop of [update] on the pair
    ([instances], [ip2instance]). *)
Definition indexInstance (ix : gmap string (list ServiceInstance) * gmap string (list ServiceInstance))
  (instance : ServiceInstance)
  : gmap string (list ServiceInstance) * gmap string (list ServiceInstance) :=
  let key := Hostname_String (Service_Hostname (Instance_Service instance)) in
  let m := <[key := default [] (ix.1 !! key) ++ [instance]]> ix.1 in
  let address := Endpoint_Address (Instance_Endpoint instance) in
  (m, <[address := default [] (m !! address) ++ [instance]]> ix.2).

Definition rebuildIndex (configs : list Config)
  : gmap string (list ServiceInstance) * gmap string (list ServiceInstance) :=
  fold_left indexInstance (allInstances configs) (∅, ∅).

Definition withIndex (d : ServiceEntryStore)
  (ix : gmap string (list ServiceInstance) * gmap string (list ServiceInstance))
  : ServiceEntryStore :=
  {| serviceHandlers := serviceHandlers d;
     instanceHandlers := instanceHandlers d;
     store := store d;
     callbacks := callbacks d;
     storeMutex := storeMutex d;
     ip2instance := ix.2;
     instances := ix.1;
     lastChange := lastChange d;
     updateNeeded := updateNeeded d |}.

(** The body of the inner loop of [update], as a step on the store. *)
Definition indexBody (instance : ServiceInstance) : M unit :=
  let key := Hostname_String (Service_Hostname (Instance_Service instance)) in
  m ← get instances;
  let out := match m !! key with Some out => out | None => [] end in
  let out := out ++ [instance] in
  set_instances (<[key := out]> m) ;;
  m ← get instances;
  let address := Endpoint_Address (Instance_Endpoint instance) in
  let byip := match m !! address with Some byip => byip | None => [] end in
  let byip := byip ++ [instance] in
  ip ← get ip2instance;
  set_ip2instance (<[address := byip]> ip).

(** The trace of a call of [update] that rebuilds. *)
Definition rebuildTrace : list Op :=
  [OpRLock; OpReadUpdateNeeded true; OpRUnlock; OpLock; OpServiceEntries; OpUnlock].

(** Whether a trace reads the flag again once the exclusive lock is taken. *)
Definition isFlagRead (o : Op) : bool :=
  match o with
  | OpReadUpdateNeeded _ => true
  | _ => false
  end.

Fixpoint rechecks (tr : list Op) : bool :=
  match tr with
  | [] => false
  | OpLock :: rest => existsb isFlagRead rest
  | _ :: rest => rechecks rest
  end.

(** The reachable states: a fresh store, and whatever the methods, the event
    handler and the configuration store make of it. *)
Inductive reachable : ServiceEntryStore -> Prop :=
| reach_new callbacks configs :
    reachable (NewServiceDiscovery callbacks configs)
| reach_store d configs d' tr :
    reachable d -> storeChanges configs d = Done tt d' tr -> reachable d'
| reach_event d now config event d' tr :
    reachable d -> eventHandler now config event d = Done tt d' tr -> reachable d'
| reach_service_handler d f r d' tr :
    reachable d -> AppendServiceHandler f d = Done r d' tr -> reachable d'
| reach_instance_handler d f r d' tr :
    reachable d -> AppendInstanceHandler f d = Done r d' tr -> reachable d'
| reach_services d r d' tr :
    reachable d -> Services d = Done r d' tr -> reachable d'
| reach_get_service d h r d' tr :
    reachable d -> GetService h d = Done r d' tr -> reachable d'
| reach_attributes d h r d' tr :
    reachable d -> GetServiceAttributes h d = Done r d' tr -> reachable d'
| reach_instances d h ports labels r d' tr :
    reachable d -> Instances h ports labels d = Done r d' tr -> reachable d'
| reach_by_port d h port labels r d' tr :
    reachable d -> InstancesByPort h port labels d = Done r d' tr -> reachable d'
| reach_proxy d node r d' tr :
    reachable d -> GetProxyServiceInstances node d = Done r d' tr -> reachable d'.

End Registry.

Arguments Done {_ _ _ A} a d tr.
Arguments Halted {_ _ _ A} why tr.
Arguments Config : clear implicits.
Arguments ServiceEntryStore : clear implicits.
Arguments Op : clear implicits.
Arguments Outcome : clear implicits.
Arguments M : clear implicits.

(** ** A small store

    One ServiceEntry declaring [s1.example] with two service ports on the one
    endpoint [10.0.0.1], so that conversion yields one instance per port, and
    a second entry for [s2.example] on [10.0.0.2].  The raw record is the pair
    of what conversion makes of it. *)

Definition ExampleEntry : Type := list Service * list ServiceInstance.

Definition ex_service (h : string) : Service :=
  {| Service_Hostname := h;
     Service_Attributes := {| Attr_Name := h; Attr_Namespace := "default" |} |}.

Definition ex_instance (h address name : string) (port : Z) (labels : Labels)
  : ServiceInstance :=
  {| Instance_Endpoint :=
       {| Endpoint_Address := address;
          Endpoint_Port := port;
          Endpoint_ServicePort := {| Port_Name := name; Port_Port := port |} |};
     Instance_Service := ex_service h;
     Instance_Labels := labels |}.

Definition ex_http : ServiceInstance :=
  ex_instance "s1.example" "10.0.0.1" "http" 8080 {[ "env" := "prod" ]}.

Definition ex_https : ServiceInstance :=
  ex_instance "s1.example" "10.0.0.1" "https" 8443 {[ "env" := "prod" ]}.

Definition ex_other : ServiceInstance :=
  ex_instance "s2.example" "10.0.0.2" "http" 8080 ∅.

Definition ex_configs : list (Config ExampleEntry) :=
  [ {| Spec := ([ex_service "s1.example"], [ex_http; ex_https]); Namespace := "default" |};
    {| Spec := ([ex_service "s2.example"], [ex_other]); Namespace := "other" |} ].

(** The store [NewServiceDiscovery(nil, store)] returns; handlers go by name. *)
Definition ex_store : ServiceEntryStore ExampleEntry string string :=
  NewServiceDiscovery None ex_configs.

(** The same store with the flag down, as a rebuild that cleared it would
    leave it. *)
Definition ex_clean : ServiceEntryStore ExampleEntry string string :=
  {| serviceHandlers := [];
     instanceHandlers := [];
     store := ex_configs;
     callbacks := None;
     storeMutex := unlocked;
     ip2instance := (rebuildIndex snd ex_configs).2;
     instances := (rebuildIndex snd ex_configs).1;
     lastChange := 0%Z;
     updateNeeded := false |}.

(** The store after wiring: two service handlers and one instance handler. *)
Definition ex_wired : ServiceEntryStore ExampleEntry string string :=
  {| serviceHandlers := ["clearCache"; "logService"];
     instanceHandlers := ["clearCache"];
     store := ex_configs;
     callbacks := None;
     storeMutex := unlocked;
     ip2instance := ∅;
     instances := ∅;
     lastChange := 0%Z;
     updateNeeded := true |}.

Definition ex_changed : Config ExampleEntry :=
  {| Spec := ([ex_service "s1.example"], [ex_http; ex_https]); Namespace := "default" |}.

Definition ex_second : Config ExampleEntry :=
  {| Spec := ([ex_service "s2.example"], [ex_other]); Namespace := "other" |}.

(** [ex_clean] after a call of [update]: one shared hold is outstanding. *)
Definition ex_leaked : ServiceEntryStore ExampleEntry string string :=
  {| serviceHandlers := [];
     instanceHandlers := [];
     store := ex_configs;
     callbacks := None;
     storeMutex := {| readers := 1; writer := false |};
     ip2instance := (rebuildIndex snd ex_configs).2;
     instances := (rebuildIndex snd ex_configs).1;
     lastChange := 0%Z;
     updateNeeded := false |}.

(** [ex_store] after a query on the index and the removal of the second
    entry from the store, with no notification: the maps still hold
    [s2.example]. *)
Definition ex_after_removal : ServiceEntryStore ExampleEntry string string :=
  {| serviceHandlers := [];
     instanceHandlers := [];
     store := [ex_changed];
     callbacks := None;
     storeMutex := unlocked;
     ip2instance := (rebuildIndex snd ex_configs).2;
     instances := (rebuildIndex snd ex_configs).1;
     lastChange := 0%Z;
     updateNeeded := true |}.

(** * Proofs *)

Section RegistryProofs.

Context {ServiceEntry : Type}.
Context (convertServices : ServiceEntry -> list Service).
Context (convertInstances : ServiceEntry -> list ServiceInstance).
Context {serviceHandler instanceHandler : Type}.

Local Abbreviation Store := (ServiceEntryStore ServiceEntry serviceHandler instanceHandler).
Local Abbreviation Step := (Op serviceHandler instanceHandler).
Local Abbreviation Method := (M ServiceEntry serviceHandler instanceHandler).

Ltac run :=
  repeat progress
    (unfold mbind, M_bind, mret, M_ret, get, emit, halt, set_storeMutex, set_ip2instance,
       set_instances, set_lastChange, set_updateNeeded, set_serviceHandlers,
       set_instanceHandlers, read_updateNeeded, RLock, RUnlock, Lock, Unlock,
       ServiceEntries;
     cbn beta iota zeta delta
       [readers writer storeMutex ip2instance instances updateNeeded store
        serviceHandlers instanceHandlers callbacks lastChange negb app fst snd]).

(** ** Loops *)

Lemma forRange_step {A} (step : Store -> A -> Store)
  (body : A -> Method unit) (xs : list A) :
  (forall x d, body x d = Done tt (step d x) []) ->
  forall d, forRange xs body d = Done tt (fold_left step xs d) [].
Proof.
  intros Hbody. induction xs as [|x xs IH]; intros d; [reflexivity|].
  cbn [forRange fold_left]. unfold mbind, M_bind. rewrite Hbody. cbn beta iota.
  now rewrite IH.
Qed.

Lemma forRange_emit {A} (f : A -> Step) (xs : list A) (d : Store) :
  forRange xs (fun x => emit (f x)) d = Done tt d (map f xs).
Proof.
  induction xs as [|x xs IH]; [reflexivity|].
  cbn [forRange map]. unfold mbind, M_bind. unfold emit at 1. cbn beta iota.
  now rewrite IH.
Qed.

Lemma forRange_emit2 {A B} (f : A -> B -> Step) (xs : list A) (ys : list B)
  (d : Store) :
  forRange xs (fun x => forRange ys (fun y => emit (f x y))) d
  = Done tt d (map (fun xy => f xy.1 xy.2) (list_prod xs ys)).
Proof.
  induction xs as [|x xs IH]; [reflexivity|].
  cbn [forRange list_prod]. unfold mbind, M_bind.
  rewrite forRange_emit. cbn beta iota.
  rewrite IH, map_app, map_map. reflexivity.
Qed.

Lemma fold_left_flat_map {A B C} (f : C -> B -> C) (g : A -> list B) (xs : list A) (c : C) :
  fold_left (fun c x => fold_left f (g x) c) xs c = fold_left f (flat_map g xs) c.
Proof.
  revert c. induction xs as [|x xs IH]; intros c; [reflexivity|].
  cbn [fold_left flat_map]. now rewrite IH, fold_left_app.
Qed.

Lemma fold_left_append {A B} (g : A -> list B) (xs : list A) (acc : list B) :
  fold_left (fun acc x => acc ++ g x) xs acc = acc ++ flat_map g xs.
Proof.
  revert acc. induction xs as [|x xs IH]; intros acc; cbn [fold_left flat_map].
  - now rewrite app_nil_r.
  - now rewrite IH, app_assoc.
Qed.

Lemma fold_left_select {A} (p : A -> bool) (xs acc : list A) :
  fold_left (fun out x => if p x then out ++ [x] else out) xs acc
  = acc ++ List.filter p xs.
Proof.
  revert acc. induction xs as [|x xs IH]; intros acc; cbn [fold_left List.filter].
  - now rewrite app_nil_r.
  - rewrite IH. destruct (p x); [|reflexivity].
    now rewrite <- app_assoc.
Qed.

Lemma withIndex_same (d : Store) : withIndex d (instances d, ip2instance d) = d.
Proof. now destruct d. Qed.

(** ** The rebuild loop *)

Lemma indexBody_step instance (d : Store) :
  indexBody instance d
  = Done tt (withIndex d (indexInstance (instances d, ip2instance d) instance)) [].
Proof.
  unfold indexBody, indexInstance, withIndex. run.
  set (key := Hostname_String _). set (address := Endpoint_Address _).
  destruct (instances d !! key) as [out|]; cbn [default from_option id];
    destruct (<[key := _]> (instances d) !! address) as [byip|]; reflexivity.
Qed.

Lemma fold_left_indexBody (xs : list ServiceInstance) (d : Store) :
  fold_left (fun d instance => withIndex d (indexInstance (instances d, ip2instance d) instance)) xs d
  = withIndex d (fold_left indexInstance xs (instances d, ip2instance d)).
Proof.
  revert d. induction xs as [|x xs IH]; intros d; cbn [fold_left].
  - now rewrite withIndex_same.
  - rewrite IH. cbn [withIndex instances ip2instance].
    now destruct (indexInstance _ x).
Qed.

Lemma rebuild_loop (configs : list (Config ServiceEntry)) (d : Store) :
  forRange configs (fun config =>
    let serviceEntry := Spec config in
    forRange (convertInstances serviceEntry) indexBody) d
  = Done tt (withIndex d (fold_left indexInstance (allInstances convertInstances configs)
                            (instances d, ip2instance d))) [].
Proof.
  rewrite (forRange_step
    (fun d config => withIndex d (fold_left indexInstance (convertInstances (Spec config))
                                    (instances d, ip2instance d)))).
  - f_equal. unfold allInstances. revert d.
    induction configs as [|c cs IH]; intros d; cbn [fold_left flat_map].
    + now rewrite withIndex_same.
    + rewrite IH, fold_left_app. cbn [withIndex instances ip2instance].
      now destruct (fold_left indexInstance (convertInstances (Spec c)) _).
  - intros config d0. cbn zeta.
    rewrite (forRange_step _ _ _ (fun x d => indexBody_step x d)).
    now rewrite fold_left_indexBody.
Qed.

(** In a state that needs an update and whose mutex is free, [update] returns
    after rebuilding both maps from the enumeration, and nothing else of the
    store changes: the flag stays as it was. *)
Lemma update_stale (d : Store) :
  updateNeeded d = true -> storeMutex d = unlocked ->
  update convertInstances d = Done tt (withIndex d (rebuildIndex convertInstances (store d))) rebuildTrace.
Proof.
  intros Hflag Hmu. destruct d as [sh ih st cb mu ip ins lc un].
  cbn in Hflag, Hmu. subst un mu.
  unfold update, rebuildIndex, unlocked. run.
  change (fun config => forRange (convertInstances (Spec config)) _)
    with (fun config : Config ServiceEntry => let serviceEntry := Spec config in
            forRange (convertInstances serviceEntry) indexBody : Method unit).
  rewrite rebuild_loop. reflexivity.
Qed.

(** In a state that needs no update and whose mutex no writer holds,
    [update] returns at once, one shared hold richer. *)
Lemma update_fresh (d : Store) :
  updateNeeded d = false -> writer (storeMutex d) = false ->
  update convertInstances d = Done tt
    {| serviceHandlers := serviceHandlers d;
       instanceHandlers := instanceHandlers d;
       store := store d;
       callbacks := callbacks d;
       storeMutex := {| readers := S (readers (storeMutex d)); writer := false |};
       ip2instance := ip2instance d;
       instances := instances d;
       lastChange := lastChange d;
       updateNeeded := false |}
    [OpRLock; OpReadUpdateNeeded false].
Proof.
  intros Hflag Hmu. destruct d as [sh ih st cb [n w] ip ins lc un].
  cbn in Hflag, Hmu. subst un w. reflexivity.
Qed.

(** ** The two maps after a rebuild *)

(** The by-host map collects, under each hostname, the instances of that
    hostname in the order they come. *)
Lemma byHost_fold (xs : list ServiceInstance) m ip (h : string) :
  (fold_left indexInstance xs (m, ip)).1 !! h
  = match filter (fun i => hostOf i = h) xs with
    | [] => m !! h
    | found => Some (default [] (m !! h) ++ found)
    end.
Proof.
  revert m ip. induction xs as [|x xs IH]; intros m ip; [reflexivity|].
  cbn [fold_left]. unfold indexInstance at 2. cbn [fst snd]. unfold Hostname_String.
  rewrite IH, filter_cons. destruct (decide (hostOf x = h)) as [->|Hne].
  - rewrite lookup_insert_eq. cbn [default from_option id].
    destruct (filter _ xs) as [|y ys]; [reflexivity|].
    now rewrite <- app_assoc.
  - now rewrite lookup_insert_ne.
Qed.

Lemma byHost_rebuild (configs : list (Config ServiceEntry)) (h : string) :
  (rebuildIndex convertInstances configs).1 !! h
  = match filter (fun i => hostOf i = h) (allInstances convertInstances configs) with
    | [] => None
    | found => Some found
    end.
Proof.
  unfold rebuildIndex. rewrite byHost_fold, lookup_empty.
  now destruct (filter _ _).
Qed.

(** The by-address map has an entry exactly for the addresses that occur. *)
Lemma byAddress_fold_None (xs : list ServiceInstance) m ip (a : string) :
  (fold_left indexInstance xs (m, ip)).2 !! a = None
  <-> ip !! a = None /\ Forall (fun i => addressOf i <> a) xs.
Proof.
  revert m ip. induction xs as [|x xs IH]; intros m ip; cbn [fold_left].
  - split; [intros H; split; [exact H|constructor]|now intros [H _]].
  - unfold indexInstance at 2. cbn [fst snd]. rewrite IH, Forall_cons.
    destruct (decide (addressOf x = a)) as [->|Hne].
    + rewrite lookup_insert_eq. split; [now intros [? _]|now intros [_ [? _]]].
    + rewrite lookup_insert_ne by exact Hne. tauto.
Qed.

Lemma byAddress_fold_other (xs : list ServiceInstance) m ip (a : string) :
  Forall (fun i => addressOf i <> a) xs ->
  (fold_left indexInstance xs (m, ip)).2 !! a = ip !! a.
Proof.
  revert m ip. induction xs as [|x xs IH]; intros m ip Hxs; [reflexivity|].
  apply Forall_cons in Hxs as [Hx Hxs]. cbn [fold_left].
  unfold indexInstance at 2. cbn [fst snd].
  rewrite IH by exact Hxs. now rewrite lookup_insert_ne.
Qed.

Lemma byAddress_fold_nonempty (xs : list ServiceInstance) m ip (a : string) found :
  (forall l, ip !! a = Some l -> l <> []) ->
  (fold_left indexInstance xs (m, ip)).2 !! a = Some found -> found <> [].
Proof.
  revert m ip. induction xs as [|x xs IH]; intros m ip Hip; cbn [fold_left].
  - apply Hip.
  - unfold indexInstance at 2. cbn [fst snd]. apply IH. intros l.
    destruct (decide (addressOf x = a)) as [->|Hne].
    + rewrite lookup_insert_eq. intros [= <-]. now destruct (default [] _).
    + rewrite lookup_insert_ne by exact Hne. apply Hip.
Qed.

Lemma filter_none {A} (P : A -> Prop) `{!forall x, Decision (P x)} (xs : list A) :
  Forall (fun x => ~ P x) xs -> filter P xs = [].
Proof.
  induction 1 as [|x xs Hx _ IH]; [reflexivity|].
  now rewrite filter_cons, decide_False.
Qed.

(** What the by-address map holds for [a] when no instance has [a] for a
    hostname: the last instance of address [a], alone.  The lookup of line
    247 goes to the by-host map, finds nothing, and the instance is appended
    to an empty slice. *)
Lemma byAddress_rebuild (configs : list (Config ServiceEntry)) (a : string) before i after :
  allInstances convertInstances configs = before ++ i :: after ->
  addressOf i = a ->
  Forall (fun j => addressOf j <> a) after ->
  Forall (fun j => hostOf j <> a) (before ++ [i]) ->
  (rebuildIndex convertInstances configs).2 !! a = Some [i].
Proof.
  intros Hall Hi Hafter Hhosts. unfold rebuildIndex. rewrite Hall.
  change (before ++ i :: after) with (before ++ [i] ++ after).
  rewrite app_assoc, fold_left_app, (surjective_pairing (fold_left _ (before ++ [i]) _)).
  rewrite byAddress_fold_other by exact Hafter.
  rewrite fold_left_app, (surjective_pairing (fold_left _ before _)).
  cbn [fold_left]. unfold indexInstance at 1. cbn [fst snd]. rewrite Hi, lookup_insert_eq.
  f_equal.
  pose proof (byHost_fold (before ++ [i]) ∅ ∅ a) as Hhost.
  rewrite fold_left_app, (surjective_pairing (fold_left _ before _)) in Hhost.
  cbn [fold_left] in Hhost. unfold indexInstance at 1 in Hhost. cbn [fst snd] in Hhost.
  rewrite Hhost, lookup_empty, (filter_none _ _ Hhosts). reflexivity.
Qed.


(** ** Queries on the enumeration *)

Lemma filter_decide {A} (p : A -> bool) (P : A -> Prop) `{!forall x, Decision (P x)}
  (xs : list A) :
  (forall x, p x = true <-> P x) -> List.filter p xs = filter P xs.
Proof.
  intros Hp. induction xs as [|x xs IH]; [reflexivity|].
  cbn [List.filter]. rewrite filter_cons, IH.
  destruct (decide (P x)) as [HP|HP].
  - apply Hp in HP. now rewrite HP.
  - destruct (p x) eqn:Hx; [|reflexivity]. now apply Hp in Hx.
Qed.

(** C9.  [Services] returns the concatenation, in enumeration order, of the
    conversion of every record the store enumerates, with no error: a
    function of the enumeration alone.  It leaves the store as it found it,
    both maps and the flag included, and beside the enumeration it takes no
    step: no mutex operation and no access to the flag. *)
Theorem Services_lists_enumeration (d : Store) :
  Services convertServices d
  = Done (flat_map (fun config => convertServices (Spec config)) (store d), None)
      d [OpServiceEntries].
Proof.
  unfold Services. run. now rewrite fold_left_append.
Qed.

Lemma getServices_eq (d : Store) :
  getServices convertServices d
  = Done (allServices convertServices (store d)) d [OpServiceEntries].
Proof.
  unfold getServices, allServices. run. now rewrite fold_left_append.
Qed.

Lemma GetService_loop_unknown (h : string) (services : list Service) :
  Forall (fun s => Service_Hostname s <> h) services ->
  GetService_loop h services = (None, None).
Proof.
  induction 1 as [|s rest Hs _ IH]; [reflexivity|].
  cbn [GetService_loop]. now rewrite (bool_decide_eq_false_2 _ Hs).
Qed.

Lemma GetServiceAttributes_inner_unknown (h : string) (svcs : list Service) :
  Forall (fun s => Service_Hostname s <> h) svcs ->
  GetServiceAttributes_inner h svcs = false.
Proof.
  induction 1 as [|s rest Hs _ IH]; [reflexivity|].
  cbn [GetServiceAttributes_inner]. now rewrite (bool_decide_eq_false_2 _ Hs).
Qed.

Lemma GetServiceAttributes_loop_unknown (h : string) (configs : list (Config ServiceEntry)) :
  Forall (fun s => Service_Hostname s <> h) (allServices convertServices configs) ->
  GetServiceAttributes_loop convertServices h configs = (None, Some "service not found"%string).
Proof.
  unfold allServices. induction configs as [|c cs IH]; intros Hall; [reflexivity|].
  cbn [flat_map] in Hall. apply Forall_app in Hall as [Hc Hcs].
  cbn [GetServiceAttributes_loop].
  rewrite (GetServiceAttributes_inner_unknown _ _ Hc). now apply IH.
Qed.

(** C6.  For a hostname that no service of the enumeration carries,
    [GetService] returns no service and no error, and [GetServiceAttributes]
    returns no attributes and the error "service not found". *)
Theorem unknown_hostname_absent_or_error (d : Store) (h : string) :
  Forall (fun s => Service_Hostname s <> h)
    (flat_map (fun config => convertServices (Spec config)) (store d)) ->
  GetService convertServices h d = Done (None, None) d [OpServiceEntries]
  /\ GetServiceAttributes convertServices h d
     = Done (None, Some "service not found"%string) d [OpServiceEntries].
Proof.
  intros Hunknown. split.
  - unfold GetService. unfold mbind at 1, M_bind. rewrite getServices_eq.
    run. now rewrite GetService_loop_unknown.
  - unfold GetServiceAttributes. run.
    now rewrite GetServiceAttributes_loop_unknown.
Qed.

(** *** Matching *)

Lemma SubsetOf_spec (l that : Labels) :
  SubsetOf l that = true <-> (forall k v, l !! k = Some v -> that !! k = Some v).
Proof.
  unfold SubsetOf. rewrite forallb_forall. split.
  - intros H k v Hkv. apply elem_of_map_to_list, list_elem_of_In in Hkv.
    apply H in Hkv. now apply bool_decide_eq_true_1 in Hkv.
  - intros H [k v] Hin. apply list_elem_of_In, elem_of_map_to_list in Hin.
    apply bool_decide_eq_true_2. cbn. now apply H.
Qed.

Lemma HasSubsetOf_spec (labels : LabelsCollection) (that : Labels) :
  HasSubsetOf labels that
  <-> labels = [] \/ exists l, l ∈ labels
        /\ forall k v, l !! k = Some v -> that !! k = Some v.
Proof.
  rewrite Is_true_true. destruct labels as [|l0 ls]; [cbn; tauto|].
  unfold HasSubsetOf. rewrite existsb_exists. split.
  - intros (l & Hin & Hl). right. exists l. split.
    + now apply list_elem_of_In.
    + now apply SubsetOf_spec.
  - intros [Hnil|(l & Hin & Hl)]; [discriminate|]. exists l. split.
    + now apply list_elem_of_In.
    + now apply SubsetOf_spec.
Qed.

Lemma portMap_lookup (ports : list string) (m : gmap string bool) (name : string) :
  fold_left (fun portMap port => <[port := true]> portMap) ports m !! name
  = if decide (name ∈ ports) then Some true else m !! name.
Proof.
  revert m. induction ports as [|p ps IH]; intros m; cbn [fold_left].
  - destruct (decide (name ∈ [])) as [Hin|_]; [|reflexivity].
    now apply elem_of_nil in Hin.
  - rewrite IH. destruct (decide (name ∈ ps)) as [Hps|Hps].
    + rewrite decide_True; [reflexivity|]. now apply elem_of_cons; right.
    + destruct (decide (name = p)) as [->|Hne].
      * rewrite lookup_insert_eq, decide_True; [reflexivity|]. apply elem_of_cons; now left.
      * rewrite lookup_insert_ne by congruence. rewrite decide_False; [reflexivity|].
        intros [?|?]%elem_of_cons; contradiction.
Qed.

Lemma portMatchEnvoyV1_spec (instance : ServiceInstance) (ports : list string) :
  portMatchEnvoyV1 instance (fold_left (fun portMap port => <[port := true]> portMap) ports ∅)
  = true
  <-> ports = [] \/ Port_Name (Endpoint_ServicePort (Instance_Endpoint instance)) ∈ ports.
Proof.
  unfold portMatchEnvoyV1. rewrite orb_true_iff, bool_decide_eq_true, portMap_lookup.
  rewrite map_size_empty_iff. split.
  - intros [Hempty|Hin].
    + destruct ports as [|p ps]; [now left|].
      pose proof (portMap_lookup (p :: ps) ∅ p) as Hp. rewrite Hempty in Hp.
      rewrite lookup_empty, decide_True in Hp; [discriminate|]. apply elem_of_cons; now left.
    + destruct (decide (_ ∈ ports)) as [Hyes|_]; [now right|].
      now rewrite lookup_empty in Hin.
  - intros [->|Hin]; [now left|]. right. now rewrite decide_True.
Qed.

Lemma portMatchSingle_spec (instance : ServiceInstance) (port : Z) :
  portMatchSingle instance port = true
  <-> port = 0%Z \/ port = Port_Port (Endpoint_ServicePort (Instance_Endpoint instance)).
Proof.
  unfold portMatchSingle. now rewrite orb_true_iff, !bool_decide_eq_true.
Qed.

(** C8.  [Instances] enumerates the store and takes no other step: no call of
    [update], no mutex operation, no look at the two maps, which it leaves as
    they are.  Its result is, in conversion output order, every instance of
    the enumeration whose service hostname is the requested one, whose
    service-port name is among [ports] (any name when [ports] is empty) and
    whose labels match the requested labels.  Matching is as the spec has it:
    a label set matches when each of its keys is in the instance's labels with
    an equal value, and nothing requested matches every instance. *)
Theorem Instances_scans_enumeration (d : Store) (h : string) (ports : list string)
  (labels : LabelsCollection) :
  Instances convertInstances h ports labels d
  = Done (filter (fun i =>
                    hostOf i = h
                    /\ (ports = [] \/ Port_Name (Endpoint_ServicePort (Instance_Endpoint i)) ∈ ports)
                    /\ HasSubsetOf labels (Instance_Labels i))
            (flat_map (fun config => convertInstances (Spec config)) (store d)), None)
      d [OpServiceEntries]
  /\ (forall l that : Labels,
        HasSubsetOf [l] that <-> forall k v, l !! k = Some v -> that !! k = Some v)
  /\ (forall that : Labels, HasSubsetOf [] that /\ HasSubsetOf [∅] that).
Proof.
  split; [|split].
  - unfold Instances. run.
    rewrite (fold_left_flat_map
               (fun out instance =>
                  if bool_decide (hostOf instance = h)
                     && HasSubsetOf labels (Instance_Labels instance)
                     && portMatchEnvoyV1 instance
                          (fold_left (fun portMap port => <[port := true]> portMap) ports ∅)
                  then out ++ [instance] else out)
               (fun config => convertInstances (Spec config))).
    rewrite fold_left_select. cbn [app]. do 2 f_equal.
    apply filter_decide. intros i.
    rewrite !andb_true_iff, bool_decide_eq_true, portMatchEnvoyV1_spec, Is_true_true.
    tauto.
  - intros l that. rewrite HasSubsetOf_spec. split.
    + intros [Hnil|(l' & Hin & Hl')]; [discriminate|].
      apply list_elem_of_singleton in Hin. now subst l'.
    + intros Hl. right. exists l. split; [apply list_elem_of_singleton; reflexivity|exact Hl].
  - intros that. split; [exact I|]. apply HasSubsetOf_spec. right. exists ∅.
    split; [apply list_elem_of_singleton; reflexivity|].
    intros k v Hkv. now rewrite lookup_empty in Hkv.
Qed.

(** ** Queries on the index *)

(** The trace of a query that goes through a rebuild. *)
Lemma InstancesByPort_stale (d : Store) (h : string) (port : Z) (labels : LabelsCollection) :
  updateNeeded d = true -> storeMutex d = unlocked ->
  InstancesByPort convertInstances h port labels d
  = Done (filter (fun i =>
                    hostOf i = h
                    /\ (port = 0%Z \/ port = Port_Port (Endpoint_ServicePort (Instance_Endpoint i)))
                    /\ HasSubsetOf labels (Instance_Labels i))
            (allInstances convertInstances (store d)), None)
      (withIndex d (rebuildIndex convertInstances (store d)))
      (rebuildTrace ++ [OpRLock; OpRUnlock]).
Proof.
  intros Hflag Hmu. unfold InstancesByPort.
  unfold mbind at 1, M_bind. rewrite (update_stale d Hflag Hmu).
  cbn beta iota. unfold Hostname_String.
  destruct d as [sh ih st cb mu ip ins lc un]. cbn in Hflag, Hmu. subst un mu.
  unfold withIndex, unlocked. run.
  rewrite byHost_rebuild. cbn [store].
  set (all := allInstances convertInstances st).
  assert (Hsel : forall xs : list ServiceInstance,
    fold_left (fun out instance =>
                 if bool_decide (hostOf instance = h)
                    && HasSubsetOf labels (Instance_Labels instance)
                    && portMatchSingle instance port
                 then out ++ [instance] else out) xs []
    = filter (fun i =>
                hostOf i = h
                /\ (port = 0%Z \/ port = Port_Port (Endpoint_ServicePort (Instance_Endpoint i)))
                /\ HasSubsetOf labels (Instance_Labels i)) xs).
  { intros xs. rewrite fold_left_select. cbn [app]. apply filter_decide. intros i.
    rewrite !andb_true_iff, bool_decide_eq_true, portMatchSingle_spec, Is_true_true. tauto. }
  assert (Hhost : filter (fun i =>
                hostOf i = h
                /\ (port = 0%Z \/ port = Port_Port (Endpoint_ServicePort (Instance_Endpoint i)))
                /\ HasSubsetOf labels (Instance_Labels i)) (filter (fun i => hostOf i = h) all)
              = filter (fun i =>
                hostOf i = h
                /\ (port = 0%Z \/ port = Port_Port (Endpoint_ServicePort (Instance_Endpoint i)))
                /\ HasSubsetOf labels (Instance_Labels i)) all).
  { rewrite list_filter_filter. apply list_filter_iff. tauto. }
  rewrite <- Hhost.
  destruct (filter (fun i => hostOf i = h) all) as [|x xs] eqn:Hfound.
  - reflexivity.
  - now rewrite Hsel.
Qed.

Lemma GetProxyServiceInstances_stale (d : Store) (node : Proxy) :
  updateNeeded d = true -> storeMutex d = unlocked ->
  GetProxyServiceInstances convertInstances node d
  = Done (default [] ((rebuildIndex convertInstances (store d)).2 !! IPAddress node), None)
      (withIndex d (rebuildIndex convertInstances (store d)))
      (rebuildTrace ++ [OpRLock; OpRUnlock]).
Proof.
  intros Hflag Hmu. unfold GetProxyServiceInstances.
  unfold mbind at 1, M_bind. rewrite (update_stale d Hflag Hmu).
  cbn beta iota.
  destruct d as [sh ih st cb mu ip ins lc un]. cbn in Hflag, Hmu. subst un mu.
  unfold withIndex, unlocked. run. cbn [store].
  now destruct ((rebuildIndex convertInstances st).2 !! IPAddress node).
Qed.

(** C5.  In a state that needs an update and whose mutex is free (every
    reachable state is such, see [reachable_stale_unlocked]),
    [InstancesByPort] returns, and with port 0 and no labels it returns
    exactly the instances of the enumeration under the hostname, whatever
    their port; with another port it returns those of them whose service-port
    number is that port and whose labels match. *)
Theorem InstancesByPort_wildcard_and_exact (d : Store) (h : string) :
  updateNeeded d = true -> storeMutex d = unlocked ->
  (exists d' tr,
     InstancesByPort convertInstances h 0 [] d
     = Done (filter (fun i => hostOf i = h)
               (flat_map (fun config => convertInstances (Spec config)) (store d)), None)
         d' tr)
  /\ forall (port : Z) (labels : LabelsCollection), port <> 0%Z ->
     exists d' tr,
       InstancesByPort convertInstances h port labels d
       = Done (filter (fun i =>
                         hostOf i = h
                         /\ Port_Port (Endpoint_ServicePort (Instance_Endpoint i)) = port
                         /\ HasSubsetOf labels (Instance_Labels i))
                 (flat_map (fun config => convertInstances (Spec config)) (store d)), None)
           d' tr.
Proof.
  intros Hflag Hmu. split.
  - do 2 eexists. rewrite (InstancesByPort_stale d h 0 [] Hflag Hmu). do 2 f_equal.
    apply list_filter_iff. intros i. cbn. tauto.
  - intros port labels Hport. do 2 eexists.
    rewrite (InstancesByPort_stale d h port labels Hflag Hmu). do 2 f_equal.
    apply list_filter_iff. intros i. split.
    + intros (Hh & [H0|Hp] & Hl); [contradiction|]. now split.
    + intros (Hh & Hp & Hl). split; [exact Hh|]. split; [now right|exact Hl].
Qed.

Lemma GetProxyServiceInstances_no_error (d : Store) (node : Proxy) r d' tr :
  GetProxyServiceInstances convertInstances node d = Done r d' tr -> r.2 = None.
Proof.
  unfold GetProxyServiceInstances. unfold mbind at 1, M_bind.
  destruct (update convertInstances d) as [[] d1 tr1|]; [|discriminate].
  run. destruct (writer (storeMutex d1)); [discriminate|].
  run. destruct (ip2instance d1 !! IPAddress node); intros [= <- _ _]; reflexivity.
Qed.

(** C7.  In a state that needs an update and whose mutex is free, for an
    address that no instance of the enumeration has,
    [GetProxyServiceInstances] returns the empty slice and no error; and
    whatever the state, a call that returns, returns no error. *)
Theorem GetProxyServiceInstances_absent_is_empty (d : Store) (node : Proxy) :
  updateNeeded d = true -> storeMutex d = unlocked ->
  Forall (fun i => addressOf i <> IPAddress node)
    (flat_map (fun config => convertInstances (Spec config)) (store d)) ->
  (exists d' tr, GetProxyServiceInstances convertInstances node d = Done ([], None) d' tr)
  /\ forall (d0 : Store) (node0 : Proxy) r d' tr,
       GetProxyServiceInstances convertInstances node0 d0 = Done r d' tr -> r.2 = None.
Proof.
  intros Hflag Hmu Habsent. split.
  - do 2 eexists. rewrite (GetProxyServiceInstances_stale d node Hflag Hmu).
    assert (Hnone : (rebuildIndex convertInstances (store d)).2 !! IPAddress node = None).
    { unfold rebuildIndex. apply byAddress_fold_None. split; [apply lookup_empty|exact Habsent]. }
    now rewrite Hnone.
  - intros d0 node0 r d' tr. apply GetProxyServiceInstances_no_error.
Qed.

(** C10.  The store [NewServiceDiscovery] returns has the flag up and both
    maps empty, and its first query on the index, by port or by address,
    rebuilds before it answers: it enumerates the store under the exclusive
    lock and answers from the rebuilt maps.  By port it returns the matching
    instances of the enumeration; by address it returns the empty slice only
    for an address that no instance of the enumeration has. *)
Theorem NewServiceDiscovery_stale_then_rebuilt (callbacks : option ConfigStoreCache)
  (configs : list (Config ServiceEntry)) :
  let d : Store := NewServiceDiscovery callbacks configs in
  updateNeeded d = true /\ instances d = ∅ /\ ip2instance d = ∅
  /\ (forall (h : string) (port : Z) (labels : LabelsCollection),
        exists d' : Store,
          InstancesByPort convertInstances h port labels d
          = Done (filter (fun i =>
                            hostOf i = h
                            /\ (port = 0%Z
                                \/ port = Port_Port (Endpoint_ServicePort (Instance_Endpoint i)))
                            /\ HasSubsetOf labels (Instance_Labels i))
                    (flat_map (fun config => convertInstances (Spec config)) configs), None)
              d'
              ([OpRLock; OpReadUpdateNeeded true; OpRUnlock; OpLock; OpServiceEntries; OpUnlock]
               ++ [OpRLock; OpRUnlock]))
  /\ (forall node : Proxy,
        exists (d' : Store) (found : list ServiceInstance),
          GetProxyServiceInstances convertInstances node d
          = Done (found, None) d'
              ([OpRLock; OpReadUpdateNeeded true; OpRUnlock; OpLock; OpServiceEntries; OpUnlock]
               ++ [OpRLock; OpRUnlock])
          /\ (found = []
              <-> Forall (fun i => addressOf i <> IPAddress node)
                    (flat_map (fun config => convertInstances (Spec config)) configs))).
Proof.
  intros d. repeat split.
  - intros h port labels. eexists.
    exact (InstancesByPort_stale d h port labels eq_refl eq_refl).
  - intros node. do 2 eexists.
    split; [exact (GetProxyServiceInstances_stale d node eq_refl eq_refl)|].
    cbn [store d NewServiceDiscovery]. unfold rebuildIndex.
    destruct ((fold_left indexInstance (allInstances convertInstances configs) (∅, ∅)).2
                !! IPAddress node) as [found|] eqn:Hfound; cbn [default from_option id].
    + split.
      * intros ->. exfalso. revert Hfound. intros Hfound.
        apply byAddress_fold_nonempty in Hfound; [now apply Hfound|].
        intros l Hl. now rewrite lookup_empty in Hl.
      * intros Habsent. exfalso.
        assert (Hnone : (fold_left indexInstance (allInstances convertInstances configs) (∅, ∅)).2
                          !! IPAddress node = None).
        { apply byAddress_fold_None. split; [apply lookup_empty|exact Habsent]. }
        congruence.
    + split; [intros _|reflexivity].
      now apply byAddress_fold_None in Hfound as [_ Hfound].
Qed.

(** ** The event handler *)

Lemma eventHandler_unlocked (d : Store) (now : Time) (config : Config ServiceEntry)
  (event : Event) :
  storeMutex d = unlocked ->
  eventHandler convertServices convertInstances now config event d
  = Done tt
      {| serviceHandlers := serviceHandlers d;
         instanceHandlers := instanceHandlers d;
         store := store d;
         callbacks := callbacks d;
         storeMutex := unlocked;
         ip2instance := ip2instance d;
         instances := instances d;
         lastChange := now;
         updateNeeded := true |}
      ([OpLock; OpWriteUpdateNeeded true; OpUnlock]
       ++ map (fun hs => OpGoService hs.1 hs.2 event)
            (list_prod (serviceHandlers d) (convertServices (Spec config)))
       ++ map (fun hi => OpGoInstance hi.1 hi.2 event)
            (list_prod (instanceHandlers d) (convertInstances (Spec config)))).
Proof.
  intros Hmu. destruct d as [sh ih st cb mu ip ins lc un]. cbn in Hmu. subst mu.
  unfold eventHandler, unlocked. run.
  rewrite (forRange_emit2 (fun h s => OpGoService h s event)).
  rewrite (forRange_emit2 (fun h i => OpGoInstance h i event)).
  reflexivity.
Qed.

(** C4.  With the mutex free, the handler of a change notification returns
    with the flag set; beside taking and releasing the exclusive lock around
    that, it spawns one goroutine for each pair of a registered service
    handler and a service of the changed record, and one for each pair of a
    registered instance handler and an instance of the changed record, each
    with the event of the notification, and nothing else. *)
Theorem eventHandler_marks_stale_and_dispatches (d : Store) (now : Time)
  (config : Config ServiceEntry) (event : Event) :
  storeMutex d = unlocked ->
  exists d' : Store,
    eventHandler convertServices convertInstances now config event d
    = Done tt d'
        ([OpLock; OpWriteUpdateNeeded true; OpUnlock]
         ++ map (fun hs => OpGoService hs.1 hs.2 event)
              (list_prod (serviceHandlers d) (convertServices (Spec config)))
         ++ map (fun hi => OpGoInstance hi.1 hi.2 event)
              (list_prod (instanceHandlers d) (convertInstances (Spec config))))
    /\ updateNeeded d' = true
    /\ serviceHandlers d' = serviceHandlers d
    /\ instanceHandlers d' = instanceHandlers d.
Proof.
  intros Hmu. eexists. split; [exact (eventHandler_unlocked d now config event Hmu)|].
  repeat split.
Qed.

(** C3, amended.  When the flag is up and the mutex free, [update] takes the
    shared hold for the one read of the flag and releases it before it asks
    for the exclusive lock; under the exclusive lock it enumerates the store
    and rebuilds without reading the flag again, and it returns with the
    mutex free. *)
Theorem update_stale_lock_discipline (d : Store) :
  updateNeeded d = true -> storeMutex d = unlocked ->
  exists (d' : Store) (tr : list Step),
    update convertInstances d = Done tt d' tr
    /\ tr = [OpRLock; OpReadUpdateNeeded true; OpRUnlock; OpLock; OpServiceEntries; OpUnlock]
    /\ rechecks tr = false
    /\ storeMutex d' = unlocked.
Proof.
  intros Hflag Hmu. do 2 eexists. split; [exact (update_stale d Hflag Hmu)|].
  split; [reflexivity|]. split; [reflexivity|exact Hmu].
Qed.

(** ** Reachable states *)

(** No method ever lowers the flag, and every method that returns has
    released what it acquired: in every reachable state the flag is up and
    the mutex is free. *)
Lemma reachable_stale_unlocked (d : Store) :
  reachable convertServices convertInstances d ->
  updateNeeded d = true /\ storeMutex d = unlocked.
Proof.
  induction 1 as [cb configs
                 |d configs d' tr _ [Hflag Hmu] Hrun
                 |d now config event d' tr _ [Hflag Hmu] Hrun
                 |d f r d' tr _ [Hflag Hmu] Hrun
                 |d f r d' tr _ [Hflag Hmu] Hrun
                 |d r d' tr _ [Hflag Hmu] Hrun
                 |d h r d' tr _ [Hflag Hmu] Hrun
                 |d h r d' tr _ [Hflag Hmu] Hrun
                 |d h ports labels r d' tr _ [Hflag Hmu] Hrun
                 |d h port labels r d' tr _ [Hflag Hmu] Hrun
                 |d node r d' tr _ [Hflag Hmu] Hrun].
  - split; reflexivity.
  - unfold storeChanges in Hrun. injection Hrun as <- _. now split.
  - rewrite (eventHandler_unlocked d now config event Hmu) in Hrun.
    injection Hrun as <- _. now split.
  - unfold AppendServiceHandler in Hrun. revert Hrun. run. intros [= _ <- _]. now split.
  - unfold AppendInstanceHandler in Hrun. revert Hrun. run. intros [= _ <- _]. now split.
  - unfold Services in Hrun. revert Hrun. run. intros [= _ <- _]. now split.
  - unfold GetService in Hrun. unfold mbind at 1, M_bind in Hrun.
    rewrite getServices_eq in Hrun. revert Hrun. run. intros [= _ <- _]. now split.
  - unfold GetServiceAttributes in Hrun. revert Hrun. run. intros [= _ <- _]. now split.
  - unfold Instances in Hrun. revert Hrun. run. intros [= _ <- _]. now split.
  - rewrite (InstancesByPort_stale d h port labels Hflag Hmu) in Hrun.
    injection Hrun as _ <- _. now split.
  - rewrite (GetProxyServiceInstances_stale d node Hflag Hmu) in Hrun.
    injection Hrun as _ <- _. now split.
Qed.

(** * Further properties *)

(** ** Lookups by hostname *)

Lemma GetService_loop_first (h : string) (before : list Service) (s : Service)
  (after : list Service) :
  Forall (fun s' => Service_Hostname s' <> h) before ->
  Service_Hostname s = h ->
  GetService_loop h (before ++ s :: after) = (Some s, None).
Proof.
  intros Hbefore Hs. induction Hbefore as [|s' rest Hs' _ IH]; cbn [app GetService_loop].
  - now rewrite (bool_decide_eq_true_2 _ Hs).
  - now rewrite (bool_decide_eq_false_2 _ Hs').
Qed.

(** X1.  [GetService] returns the first service of the requested hostname
    in enumeration order, with no error: services of that hostname further
    down the enumeration are never returned. *)
Theorem GetService_first_match (d : Store) (h : string) (before : list Service)
  (s : Service) (after : list Service) :
  flat_map (fun config => convertServices (Spec config)) (store d) = before ++ s :: after ->
  Forall (fun s' => Service_Hostname s' <> h) before ->
  Service_Hostname s = h ->
  GetService convertServices h d = Done (Some s, None) d [OpServiceEntries].
Proof.
  intros Hall Hbefore Hs. unfold GetService. unfold mbind at 1, M_bind.
  rewrite getServices_eq. run. unfold allServices. rewrite Hall.
  now rewrite (GetService_loop_first h before s after Hbefore Hs).
Qed.

Lemma GetServiceAttributes_inner_spec (h : string) (svcs : list Service) :
  GetServiceAttributes_inner h svcs = true
  <-> Exists (fun s => Service_Hostname s = h) svcs.
Proof.
  induction svcs as [|s rest IH]; cbn [GetServiceAttributes_inner].
  - split; [discriminate|]. intros H. now apply Exists_nil in H.
  - rewrite Exists_cons. destruct (decide (Service_Hostname s = h)) as [Hs|Hs].
    + rewrite (bool_decide_eq_true_2 _ Hs). tauto.
    + rewrite (bool_decide_eq_false_2 _ Hs). rewrite IH. tauto.
Qed.

Lemma GetServiceAttributes_loop_first (h : string) (before : list (Config ServiceEntry))
  (c : Config ServiceEntry) (after : list (Config ServiceEntry)) :
  Forall (fun s => Service_Hostname s <> h) (allServices convertServices before) ->
  Exists (fun s => Service_Hostname s = h) (convertServices (Spec c)) ->
  GetServiceAttributes_loop convertServices h (before ++ c :: after)
  = (Some {| Attr_Name := h; Attr_Namespace := Namespace c |}, None).
Proof.
  intros Hbefore Hc. induction before as [|b bs IH]; cbn [app GetServiceAttributes_loop].
  - apply GetServiceAttributes_inner_spec in Hc. now rewrite Hc.
  - unfold allServices in Hbefore. cbn [flat_map] in Hbefore.
    apply Forall_app in Hbefore as [Hb Hbs].
    rewrite (GetServiceAttributes_inner_unknown _ _ Hb). now apply IH.
Qed.

(** X2.  [GetServiceAttributes] answers from the first config of the
    enumeration whose conversion has a service of the requested hostname:
    the name is the hostname, the namespace is that config's, and there is no
    error. *)
Theorem GetServiceAttributes_first_config (d : Store) (h : string)
  (before : list (Config ServiceEntry)) (c : Config ServiceEntry)
  (after : list (Config ServiceEntry)) :
  store d = before ++ c :: after ->
  Forall (fun s => Service_Hostname s <> h)
    (flat_map (fun config => convertServices (Spec config)) before) ->
  Exists (fun s => Service_Hostname s = h) (convertServices (Spec c)) ->
  GetServiceAttributes convertServices h d
  = Done (Some {| Attr_Name := h; Attr_Namespace := Namespace c |}, None)
      d [OpServiceEntries].
Proof.
  intros Hstore Hbefore Hc. unfold GetServiceAttributes. run. rewrite Hstore.
  now rewrite (GetServiceAttributes_loop_first h before c after Hbefore Hc).
Qed.

Lemma GetService_loop_no_error (h : string) (services : list Service) :
  (GetService_loop h services).2 = None.
Proof.
  induction services as [|s rest IH]; [reflexivity|].
  cbn [GetService_loop]. now destruct (bool_decide _).
Qed.

Lemma GetService_loop_found (h : string) (services : list Service) :
  is_Some (GetService_loop h services).1
  <-> Exists (fun s => Service_Hostname s = h) services.
Proof.
  induction services as [|s rest IH]; cbn [GetService_loop].
  - split; [intros [? [=]]|]. intros H. now apply Exists_nil in H.
  - rewrite Exists_cons. destruct (decide (Service_Hostname s = h)) as [Hs|Hs].
    + rewrite (bool_decide_eq_true_2 _ Hs). cbn. split; [now left|]. intros _. now eexists.
    + rewrite (bool_decide_eq_false_2 _ Hs). rewrite IH. tauto.
Qed.

Lemma GetServiceAttributes_loop_found (h : string) (configs : list (Config ServiceEntry)) :
  (is_Some (GetServiceAttributes_loop convertServices h configs).1
   <-> Exists (fun s => Service_Hostname s = h) (allServices convertServices configs))
  /\ (is_Some (GetServiceAttributes_loop convertServices h configs).1
      <-> (GetServiceAttributes_loop convertServices h configs).2 = None).
Proof.
  unfold allServices.
  induction configs as [|c cs [IHfound IHerr]]; cbn [GetServiceAttributes_loop flat_map].
  - split; (split; [intros [? [=]]|]); [|discriminate].
    intros H. now apply Exists_nil in H.
  - rewrite Exists_app.
    destruct (GetServiceAttributes_inner h (convertServices (Spec c))) eqn:Hinner.
    + apply GetServiceAttributes_inner_spec in Hinner. cbn.
      split; (split; [|intros _; now eexists]); [now left|reflexivity].
    + split; [|exact IHerr]. rewrite IHfound. split; [now right|].
      intros [Hc|Hcs]; [|exact Hcs].
      apply GetServiceAttributes_inner_spec in Hc. congruence.
Qed.

(** X3.  The two lookups by hostname agree on what exists: [GetService]
    finds a service exactly when [GetServiceAttributes] returns attributes,
    [GetServiceAttributes] returns attributes exactly when it returns no
    error, and [GetService] never returns an error. *)
Theorem GetService_agrees_with_GetServiceAttributes (d : Store) (h : string) :
  exists (svc : option Service) (attrs : option ServiceAttributes) (err : option error),
    GetService convertServices h d = Done (svc, None) d [OpServiceEntries]
    /\ GetServiceAttributes convertServices h d = Done (attrs, err) d [OpServiceEntries]
    /\ (is_Some svc <-> is_Some attrs)
    /\ (is_Some attrs <-> err = None).
Proof.
  exists (GetService_loop h (allServices convertServices (store d))).1,
         (GetServiceAttributes_loop convertServices h (store d)).1,
         (GetServiceAttributes_loop convertServices h (store d)).2.
  split; [|split; [|split]].
  - unfold GetService. unfold mbind at 1, M_bind. rewrite getServices_eq. run.
    rewrite <- (GetService_loop_no_error h (allServices convertServices (store d))).
    now rewrite <- surjective_pairing.
  - unfold GetServiceAttributes. run. now rewrite <- surjective_pairing.
  - rewrite GetService_loop_found.
    now rewrite (proj1 (GetServiceAttributes_loop_found h (store d))).
  - apply GetServiceAttributes_loop_found.
Qed.

(** ** Registration and dispatch *)

Lemma list_prod_snoc {A B} (xs : list A) (x : A) (ys : list B) :
  list_prod (xs ++ [x]) ys = list_prod xs ys ++ map (fun y => (x, y)) ys.
Proof.
  induction xs as [|x' xs IH]; cbn [app list_prod].
  - now rewrite app_nil_r.
  - now rewrite IH, app_assoc.
Qed.

(** X4.  Registration composes with dispatch.  [AppendServiceHandler] and
    [AppendInstanceHandler] return no error and take no step on the mutex;
    at the next notification the handlers registered before are spawned first,
    in their order, and then the new one, once for each service (instance) of
    the changed record. *)
Theorem appended_handlers_are_dispatched_last (d : Store) (f : serviceHandler)
  (g : instanceHandler) (now : Time) (config : Config ServiceEntry) (event : Event) :
  storeMutex d = unlocked ->
  exists d1 d2 d3 : Store,
    AppendServiceHandler f d = Done None d1 []
    /\ AppendInstanceHandler g d1 = Done None d2 []
    /\ eventHandler convertServices convertInstances now config event d2
       = Done tt d3
           ([OpLock; OpWriteUpdateNeeded true; OpUnlock]
            ++ (map (fun hs => OpGoService hs.1 hs.2 event)
                  (list_prod (serviceHandlers d) (convertServices (Spec config)))
                ++ map (fun s => OpGoService f s event) (convertServices (Spec config)))
            ++ (map (fun hi => OpGoInstance hi.1 hi.2 event)
                  (list_prod (instanceHandlers d) (convertInstances (Spec config)))
                ++ map (fun i => OpGoInstance g i event) (convertInstances (Spec config)))).
Proof.
  intros Hmu. do 3 eexists. split; [reflexivity|]. split; [reflexivity|].
  rewrite eventHandler_unlocked by exact Hmu.
  cbn [serviceHandlers instanceHandlers].
  rewrite !list_prod_snoc, !map_app, !map_map. reflexivity.
Qed.

Lemma eventHandler_locked (d : Store) (now : Time) (config : Config ServiceEntry)
  (event : Event) :
  storeMutex d <> unlocked ->
  eventHandler convertServices convertInstances now config event d = Halted Deadlock [].
Proof.
  intros Hmu. destruct d as [sh ih st cb [n w] ip ins lc un]. cbn in Hmu.
  unfold eventHandler. run. destruct w; [reflexivity|].
  destruct n; [now contradiction Hmu|reflexivity].
Qed.

(** X5.  The handler does nothing before it holds the exclusive lock: while
    a shared or the exclusive hold is outstanding it waits at its first step,
    with the flag not yet written and no goroutine spawned. *)
Theorem eventHandler_waits_for_the_lock (d : Store) (now : Time)
  (config : Config ServiceEntry) (event : Event) :
  storeMutex d <> unlocked ->
  eventHandler convertServices convertInstances now config event d = Halted Deadlock [].
Proof. apply eventHandler_locked. Qed.


(** ** The rebuilt by-host map *)

(** X7.  After [update] the by-host map has an entry exactly for the
    hostnames that have an instance in the enumeration, and the entry of a
    hostname is the list of its instances in conversion output order; what the
    map held before the call is gone. *)
Theorem update_indexes_by_host (d : Store) :
  updateNeeded d = true -> storeMutex d = unlocked ->
  exists (d' : Store) (tr : list Step),
    update convertInstances d = Done tt d' tr
    /\ forall h : string,
         instances d' !! h
         = match filter (fun i => hostOf i = h)
                   (flat_map (fun config => convertInstances (Spec config)) (store d)) with
           | [] => None
           | found => Some found
           end.
Proof.
  intros Hflag Hmu. do 2 eexists. split; [exact (update_stale d Hflag Hmu)|].
  intros h. cbn [withIndex instances]. apply byHost_rebuild.
Qed.

(** ** Queries on the index, further *)

Lemma InstancesByPort_no_error (d : Store) (h : string) (port : Z)
  (labels : LabelsCollection) r d' tr :
  InstancesByPort convertInstances h port labels d = Done r d' tr -> r.2 = None.
Proof.
  unfold InstancesByPort. unfold mbind at 1, M_bind.
  destruct (update convertInstances d) as [[] d1 tr1|]; [|discriminate].
  run. destruct (writer (storeMutex d1)); [discriminate|].
  run. intros [= <- _ _]. reflexivity.
Qed.

(** X8.  A hostname without instances is no error for [InstancesByPort]: in
    a state that needs an update and whose mutex is free it returns the empty
    slice and no error for such a hostname, whatever the port and the labels;
    and whatever the state, a call that returns, returns no error. *)
Theorem InstancesByPort_unknown_host_is_empty (d : Store) (h : string) (port : Z)
  (labels : LabelsCollection) :
  updateNeeded d = true -> storeMutex d = unlocked ->
  Forall (fun i => hostOf i <> h)
    (flat_map (fun config => convertInstances (Spec config)) (store d)) ->
  (exists d' tr, InstancesByPort convertInstances h port labels d = Done ([], None) d' tr)
  /\ forall (d0 : Store) (h0 : string) (port0 : Z) (labels0 : LabelsCollection) r d' tr,
       InstancesByPort convertInstances h0 port0 labels0 d0 = Done r d' tr -> r.2 = None.
Proof.
  intros Hflag Hmu Hunknown. split.
  - do 2 eexists. rewrite (InstancesByPort_stale d h port labels Hflag Hmu).
    do 2 f_equal. apply filter_none. unfold allInstances.
    eapply Forall_impl; [exact Hunknown|]. cbn. tauto.
  - intros d0 h0 port0 labels0 r d' tr. apply InstancesByPort_no_error.
Qed.

Lemma Instances_eq (d : Store) (h : string) (ports : list string) (labels : LabelsCollection) :
  Instances convertInstances h ports labels d
  = Done (filter (fun i =>
                    hostOf i = h
                    /\ (ports = [] \/ Port_Name (Endpoint_ServicePort (Instance_Endpoint i)) ∈ ports)
                    /\ HasSubsetOf labels (Instance_Labels i))
            (allInstances convertInstances (store d)), None)
      d [OpServiceEntries].
Proof.
  unfold Instances. run.
  rewrite (fold_left_flat_map
             (fun out instance =>
                if bool_decide (hostOf instance = h)
                   && HasSubsetOf labels (Instance_Labels instance)
                   && portMatchEnvoyV1 instance
                        (fold_left (fun portMap port => <[port := true]> portMap) ports ∅)
                then out ++ [instance] else out)
             (fun config => convertInstances (Spec config))).
  rewrite fold_left_select. cbn [app]. do 2 f_equal.
  apply filter_decide. intros i.
  rewrite !andb_true_iff, bool_decide_eq_true, portMatchEnvoyV1_spec, Is_true_true.
  tauto.
Qed.

(** X9.  The index agrees with the scan.  In a state that needs an update
    and whose mutex is free, [InstancesByPort] with port 0 returns what
    [Instances] with no port names returns for the same hostname and labels:
    the same instances in the same order. *)
Theorem InstancesByPort_agrees_with_Instances (d : Store) (h : string)
  (labels : LabelsCollection) :
  updateNeeded d = true -> storeMutex d = unlocked ->
  exists (found : list ServiceInstance) (d' : Store) (tr : list Step),
    InstancesByPort convertInstances h 0 labels d = Done (found, None) d' tr
    /\ Instances convertInstances h [] labels d = Done (found, None) d [OpServiceEntries].
Proof.
  intros Hflag Hmu. do 3 eexists.
  split; [exact (InstancesByPort_stale d h 0 labels Hflag Hmu)|].
  rewrite Instances_eq. do 2 f_equal. apply list_filter_iff. intros i. cbn. tauto.
Qed.

(** X10.  [Instances] takes the port names as a set: two lists with the same
    members, in whatever order and however often, give the same result. *)
Theorem Instances_port_names_as_set (d : Store) (h : string) (ports ports' : list string)
  (labels : LabelsCollection) :
  (forall name : string, name ∈ ports <-> name ∈ ports') ->
  Instances convertInstances h ports labels d = Instances convertInstances h ports' labels d.
Proof.
  intros Hsame. rewrite !Instances_eq. do 2 f_equal.
  apply list_filter_iff. intros i.
  assert (Hnil : ports = [] <-> ports' = []).
  { split; intros ->.
    - destruct ports' as [|p ps]; [reflexivity|].
      assert (Hp : p ∈ @nil string) by (apply Hsame, elem_of_cons; now left).
      now apply elem_of_nil in Hp.
    - destruct ports as [|p ps]; [reflexivity|].
      assert (Hp : p ∈ @nil string) by (apply Hsame, elem_of_cons; now left).
      now apply elem_of_nil in Hp. }
  rewrite Hnil, (Hsame (Port_Name _)). tauto.
Qed.

(** X11.  Where no instance has the address for a hostname, the by-address
    query returns one instance only: the last instance of that address in
    enumeration order, however many there are. *)
Theorem GetProxyServiceInstances_returns_last_instance (d : Store) (node : Proxy)
  (before : list ServiceInstance) (i : ServiceInstance) (after : list ServiceInstance) :
  updateNeeded d = true -> storeMutex d = unlocked ->
  flat_map (fun config => convertInstances (Spec config)) (store d) = before ++ i :: after ->
  addressOf i = IPAddress node ->
  Forall (fun j => addressOf j <> IPAddress node) after ->
  Forall (fun j => hostOf j <> IPAddress node) (before ++ [i]) ->
  exists (d' : Store) (tr : list Step),
    GetProxyServiceInstances convertInstances node d = Done ([i], None) d' tr.
Proof.
  intros Hflag Hmu Hall Hi Hafter Hhosts. do 2 eexists.
  rewrite (GetProxyServiceInstances_stale d node Hflag Hmu).
  now rewrite (byAddress_rebuild (store d) (IPAddress node) before i after Hall Hi Hafter Hhosts).
Qed.

(** ** The branch that needs no update *)

Lemma select_by_port (h : string) (port : Z) (labels : LabelsCollection)
  (xs : list ServiceInstance) :
  fold_left (fun out instance =>
               if bool_decide (hostOf instance = h)
                  && HasSubsetOf labels (Instance_Labels instance)
                  && portMatchSingle instance port
               then out ++ [instance] else out) xs []
  = filter (fun i =>
              hostOf i = h
              /\ (port = 0%Z \/ port = Port_Port (Endpoint_ServicePort (Instance_Endpoint i)))
              /\ HasSubsetOf labels (Instance_Labels i)) xs.
Proof.
  rewrite fold_left_select. cbn [app]. apply filter_decide. intros i.
  rewrite !andb_true_iff, bool_decide_eq_true, portMatchSingle_spec, Is_true_true. tauto.
Qed.

(** X12.  With the flag down and no writer on the mutex, [update] returns
    after reading the flag: it does not enumerate the store and leaves both
    maps as they are, but it keeps the shared hold it took, and from the state
    it leaves the event handler never gets the exclusive lock. *)
Theorem update_not_stale_keeps_shared_hold (d : Store) :
  updateNeeded d = false -> writer (storeMutex d) = false ->
  exists d' : Store,
    update convertInstances d = Done tt d' [OpRLock; OpReadUpdateNeeded false]
    /\ instances d' = instances d
    /\ ip2instance d' = ip2instance d
    /\ store d' = store d
    /\ updateNeeded d' = false
    /\ storeMutex d' = {| readers := S (readers (storeMutex d)); writer := false |}
    /\ forall (now : Time) (config : Config ServiceEntry) (event : Event),
         eventHandler convertServices convertInstances now config event d'
         = Halted Deadlock [].
Proof.
  intros Hflag Hmu. eexists. split; [exact (update_fresh d Hflag Hmu)|].
  do 5 (split; [reflexivity|]).
  intros now config event. now apply eventHandler_locked.
Qed.

(** X13.  With the flag down and no writer on the mutex, the two queries on
    the index answer from the maps as they are, without enumerating the store:
    [GetProxyServiceInstances] returns the entry of the address, or the empty
    slice, [InstancesByPort] the matching instances of the entry of the
    hostname; each call leaves one more shared hold on the mutex. *)
Theorem index_queries_not_stale_serve_the_maps (d : Store) :
  updateNeeded d = false -> writer (storeMutex d) = false ->
  (forall node : Proxy,
     exists d' : Store,
       GetProxyServiceInstances convertInstances node d
       = Done (default [] (ip2instance d !! IPAddress node), None) d'
           [OpRLock; OpReadUpdateNeeded false; OpRLock; OpRUnlock]
       /\ instances d' = instances d /\ ip2instance d' = ip2instance d
       /\ storeMutex d' = {| readers := S (readers (storeMutex d)); writer := false |})
  /\ (forall (h : string) (port : Z) (labels : LabelsCollection),
        exists d' : Store,
          InstancesByPort convertInstances h port labels d
          = Done (filter (fun i =>
                            hostOf i = h
                            /\ (port = 0%Z
                                \/ port = Port_Port (Endpoint_ServicePort (Instance_Endpoint i)))
                            /\ HasSubsetOf labels (Instance_Labels i))
                    (default [] (instances d !! h)), None) d'
              [OpRLock; OpReadUpdateNeeded false; OpRLock; OpRUnlock]
          /\ instances d' = instances d /\ ip2instance d' = ip2instance d
          /\ storeMutex d' = {| readers := S (readers (storeMutex d)); writer := false |}).
Proof.
  intros Hflag Hmu. split.
  - intros node. eexists. split.
    + unfold GetProxyServiceInstances. unfold mbind at 1, M_bind.
      rewrite (update_fresh d Hflag Hmu). run.
      destruct (ip2instance d !! IPAddress node); reflexivity.
    + repeat split.
  - intros h port labels. eexists. split.
    + unfold InstancesByPort. unfold mbind at 1, M_bind.
      rewrite (update_fresh d Hflag Hmu). run. unfold Hostname_String.
      destruct (instances d !! h) as [found|]; cbn [default from_option id].
      * now rewrite select_by_port.
      * reflexivity.
    + repeat split.
Qed.

(** ** Every history *)

(** X14.  Whatever the history of calls, notifications and changes of the
    store, the flag is up and the mutex is free between calls: nothing lowers
    the flag, and every call that returns has released what it acquired. *)
Theorem flag_up_and_mutex_free_between_calls (d : Store) :
  reachable convertServices convertInstances d ->
  updateNeeded d = true /\ storeMutex d = unlocked.
Proof. apply reachable_stale_unlocked. Qed.

(** X15.  Whatever the history, a call made on its own returns: neither the
    queries on the index nor the event handler wait for the mutex for ever. *)
Theorem calls_return_in_every_reachable_state (d : Store) :
  reachable convertServices convertInstances d ->
  (forall (h : string) (port : Z) (labels : LabelsCollection),
     exists r d' tr, InstancesByPort convertInstances h port labels d = Done r d' tr)
  /\ (forall node : Proxy,
        exists r d' tr, GetProxyServiceInstances convertInstances node d = Done r d' tr)
  /\ (forall (now : Time) (config : Config ServiceEntry) (event : Event),
        exists d' tr,
          eventHandler convertServices convertInstances now config event d = Done tt d' tr).
Proof.
  intros Hreach. destruct (reachable_stale_unlocked d Hreach) as [Hflag Hmu].
  split; [|split].
  - intros h port labels. do 3 eexists.
    exact (InstancesByPort_stale d h port labels Hflag Hmu).
  - intros node. do 3 eexists. exact (GetProxyServiceInstances_stale d node Hflag Hmu).
  - intros now config event. do 2 eexists.
    exact (eventHandler_unlocked d now config event Hmu).
Qed.

(** X16.  Whatever the history, [InstancesByPort] answers from the store's
    current enumeration: it returns, in conversion output order, exactly the
    instances of the enumeration under the hostname whose service-port number
    is the requested port (any, for port 0) and whose labels match, whether
    or not a notification has announced the last change of the store. *)
Theorem InstancesByPort_follows_the_store (d : Store) (h : string) (port : Z)
  (labels : LabelsCollection) :
  reachable convertServices convertInstances d ->
  exists (d' : Store) (tr : list Step),
    InstancesByPort convertInstances h port labels d
    = Done (filter (fun i =>
                      hostOf i = h
                      /\ (port = 0%Z
                          \/ port = Port_Port (Endpoint_ServicePort (Instance_Endpoint i)))
                      /\ HasSubsetOf labels (Instance_Labels i))
              (flat_map (fun config => convertInstances (Spec config)) (store d)), None)
        d' tr.
Proof.
  intros Hreach. destruct (reachable_stale_unlocked d Hreach) as [Hflag Hmu].
  do 2 eexists. exact (InstancesByPort_stale d h port labels Hflag Hmu).
Qed.

(** X17.  A query on the index can be repeated: in a state that needs an
    update and whose mutex is free, the same query made again on the state the
    first one leaves returns the same result, takes the same steps and leaves
    that state as it is. *)
Theorem index_queries_repeat (d : Store) :
  updateNeeded d = true -> storeMutex d = unlocked ->
  (forall node : Proxy,
     exists r (d1 : Store) (tr : list Step),
       GetProxyServiceInstances convertInstances node d = Done r d1 tr
       /\ GetProxyServiceInstances convertInstances node d1 = Done r d1 tr)
  /\ (forall (h : string) (port : Z) (labels : LabelsCollection),
        exists r (d1 : Store) (tr : list Step),
          InstancesByPort convertInstances h port labels d = Done r d1 tr
          /\ InstancesByPort convertInstances h port labels d1 = Done r d1 tr).
Proof.
  intros Hflag Hmu. split.
  - intros node. do 3 eexists.
    split; [exact (GetProxyServiceInstances_stale d node Hflag Hmu)|].
    exact (GetProxyServiceInstances_stale
             (withIndex d (rebuildIndex convertInstances (store d))) node Hflag Hmu).
  - intros h port labels. do 3 eexists.
    split; [exact (InstancesByPort_stale d h port labels Hflag Hmu)|].
    exact (InstancesByPort_stale
             (withIndex d (rebuildIndex convertInstances (store d))) h port labels Hflag Hmu).
Qed.

End RegistryProofs.

(** * The registry on the small store *)

(** C1.  The store enumerates one entry whose two instances share the
    address 10.0.0.1.  After the rebuild the by-address query for 10.0.0.1
    returns the second of them alone, where the instances of that address are
    both: line 247 of the source looks the address up in the by-host map, so
    each instance of an address replaces the ones before it. *)
Theorem byAddress_holds_last_instance_only :
  GetProxyServiceInstances snd {| IPAddress := "10.0.0.1" |} ex_store
  = Done ([ex_https], None) (withIndex ex_store (rebuildIndex snd ex_configs))
      (rebuildTrace ++ [OpRLock; OpRUnlock])
  /\ filter (fun i => addressOf i = "10.0.0.1"%string)
       (flat_map (fun config => snd (Spec config)) ex_configs)
     = [ex_http; ex_https].
Proof. split; vm_compute; reflexivity. Qed.

(** C2.  A query on the index leaves the flag up, and the next query, with
    no notification in between, takes the exclusive lock and enumerates the
    store again: [update] never writes the flag. *)
Theorem query_leaves_flag_up :
  let node := {| IPAddress := "10.0.0.2" |} in
  let d1 := withIndex ex_store (rebuildIndex snd ex_configs) in
  GetProxyServiceInstances snd node ex_store
  = Done ([ex_other], None) d1
      ([OpRLock; OpReadUpdateNeeded true; OpRUnlock; OpLock; OpServiceEntries; OpUnlock]
       ++ [OpRLock; OpRUnlock])
  /\ updateNeeded d1 = true
  /\ GetProxyServiceInstances snd node d1
     = Done ([ex_other], None) d1
         ([OpRLock; OpReadUpdateNeeded true; OpRUnlock; OpLock; OpServiceEntries; OpUnlock]
          ++ [OpRLock; OpRUnlock]).
Proof. repeat split; vm_compute; reflexivity. Qed.

(** C3.  There is no second check: on the fresh store [update] reads the
    flag once, under the shared hold, and after taking the exclusive lock it
    enumerates the store without reading the flag again. *)
Lemma update_does_not_recheck :
  exists tr : list (Op string string),
    update snd ex_store = Done tt (withIndex ex_store (rebuildIndex snd ex_configs)) tr
    /\ tr = [OpRLock; OpReadUpdateNeeded true; OpRUnlock; OpLock; OpServiceEntries; OpUnlock]
    /\ rechecks tr = false.
Proof.
  exists [OpRLock; OpReadUpdateNeeded true; OpRUnlock; OpLock; OpServiceEntries; OpUnlock].
  split; [vm_compute; reflexivity|]. split; reflexivity.
Qed.

(** With the flag down [update] returns after its first two steps and keeps
    the shared hold it took, so that the next exclusive acquisition, here the
    event handler's, never gets the mutex. *)
Example update_keeps_shared_hold :
  exists d' : ServiceEntryStore ExampleEntry string string,
    update snd ex_clean = Done tt d' [OpRLock; OpReadUpdateNeeded false]
    /\ storeMutex d' = {| readers := 1; writer := false |}
    /\ eventHandler fst snd 1%Z ex_changed EventUpdate d' = Halted Deadlock [].
Proof.
  eexists. split; [vm_compute; reflexivity|]. split; vm_compute; reflexivity.
Qed.

(** The scenario of the spec: the instance at 10.0.0.1:8080 labelled
    env=prod is found by port and label, and not under env=dev. *)
Example InstancesByPort_scenario :
  (exists d' tr,
     InstancesByPort snd "s1.example" 8080 [ {[ "env" := "prod" ]} ] ex_store
     = Done ([ex_http], None) d' tr)
  /\ (exists d' tr,
        InstancesByPort snd "s1.example" 8080 [ {[ "env" := "dev" ]} ] ex_store
        = Done ([], None) d' tr).
Proof. split; do 2 eexists; vm_compute; reflexivity. Qed.

(** ** The theorems at work *)

Lemma eventHandler_marks_stale_and_dispatches_witness :
  storeMutex ex_wired = unlocked
  /\ exists d' : ServiceEntryStore ExampleEntry string string,
       eventHandler fst snd 1%Z ex_changed EventUpdate ex_wired
       = Done tt d'
           ([OpLock; OpWriteUpdateNeeded true; OpUnlock]
            ++ map (fun hs => OpGoService hs.1 hs.2 EventUpdate)
                 (list_prod (serviceHandlers ex_wired) (fst (Spec ex_changed)))
            ++ map (fun hi => OpGoInstance hi.1 hi.2 EventUpdate)
                 (list_prod (instanceHandlers ex_wired) (snd (Spec ex_changed))))
       /\ updateNeeded d' = true
       /\ serviceHandlers d' = serviceHandlers ex_wired
       /\ instanceHandlers d' = instanceHandlers ex_wired.
Proof.
  split; [reflexivity|].
  apply (eventHandler_marks_stale_and_dispatches fst snd ex_wired 1%Z ex_changed EventUpdate).
  reflexivity.
Defined.

Lemma InstancesByPort_wildcard_and_exact_witness :
  updateNeeded ex_store = true /\ storeMutex ex_store = unlocked
  /\ exists d' tr,
       InstancesByPort snd "s1.example" 0 [] ex_store
       = Done (filter (fun i => hostOf i = "s1.example"%string)
                 (flat_map (fun config => snd (Spec config)) (store ex_store)), None)
           d' tr.
Proof.
  split; [reflexivity|]. split; [reflexivity|].
  apply (InstancesByPort_wildcard_and_exact snd ex_store "s1.example"); reflexivity.
Defined.

Lemma unknown_hostname_absent_or_error_witness :
  GetService fst "s3.example" ex_store = Done (None, None) ex_store [OpServiceEntries]
  /\ GetServiceAttributes fst "s3.example" ex_store
     = Done (None, Some "service not found"%string) ex_store [OpServiceEntries].
Proof.
  apply (unknown_hostname_absent_or_error fst ex_store "s3.example").
  cbn. repeat constructor; cbn; discriminate.
Defined.

Lemma GetProxyServiceInstances_absent_is_empty_witness :
  exists d' tr,
    GetProxyServiceInstances snd {| IPAddress := "10.0.0.9" |} ex_store = Done ([], None) d' tr.
Proof.
  apply (GetProxyServiceInstances_absent_is_empty snd ex_store {| IPAddress := "10.0.0.9" |});
    [reflexivity|reflexivity|].
  cbn. repeat constructor; cbn; discriminate.
Defined.

Lemma update_stale_lock_discipline_witness :
  exists (d' : ServiceEntryStore ExampleEntry string string) (tr : list (Op string string)),
    update snd ex_store = Done tt d' tr
    /\ tr = [OpRLock; OpReadUpdateNeeded true; OpRUnlock; OpLock; OpServiceEntries; OpUnlock]
    /\ rechecks tr = false
    /\ storeMutex d' = unlocked.
Proof.
  apply (update_stale_lock_discipline snd ex_store); reflexivity.
Defined.

(** ** The further properties at work *)

Lemma ex_after_removal_reachable : reachable fst snd ex_after_removal.
Proof.
  apply (reach_store fst snd (withIndex ex_store (rebuildIndex snd ex_configs))
           [ex_changed] ex_after_removal []).
  - apply (reach_by_port fst snd ex_store "s1.example" 0 []
             ([ex_http; ex_https], None)
             (withIndex ex_store (rebuildIndex snd ex_configs))
             (rebuildTrace ++ [OpRLock; OpRUnlock])).
    + apply reach_new.
    + vm_compute; reflexivity.
  - reflexivity.
Qed.

Lemma GetService_first_match_witness :
  GetService fst "s2.example" ex_store
  = Done (Some (ex_service "s2.example"), None) ex_store [OpServiceEntries].
Proof.
  apply (GetService_first_match fst ex_store "s2.example"
           [ex_service "s1.example"] (ex_service "s2.example") []).
  - reflexivity.
  - repeat constructor; cbn; discriminate.
  - reflexivity.
Defined.

Lemma GetServiceAttributes_first_config_witness :
  GetServiceAttributes fst "s2.example" ex_store
  = Done (Some {| Attr_Name := "s2.example"; Attr_Namespace := "other" |}, None)
      ex_store [OpServiceEntries].
Proof.
  apply (GetServiceAttributes_first_config fst ex_store "s2.example"
           [ex_changed] ex_second []).
  - reflexivity.
  - cbn. repeat constructor; cbn; discriminate.
  - cbn. apply Exists_cons_hd. reflexivity.
Defined.

Lemma appended_handlers_are_dispatched_last_witness :
  exists d1 d2 d3 : ServiceEntryStore ExampleEntry string string,
    AppendServiceHandler "audit" ex_wired = Done None d1 []
    /\ AppendInstanceHandler "audit" d1 = Done None d2 []
    /\ eventHandler fst snd 1%Z ex_changed EventAdd d2
       = Done tt d3
           ([OpLock; OpWriteUpdateNeeded true; OpUnlock]
            ++ (map (fun hs => OpGoService hs.1 hs.2 EventAdd)
                  (list_prod (serviceHandlers ex_wired) (fst (Spec ex_changed)))
                ++ map (fun s => OpGoService "audit" s EventAdd) (fst (Spec ex_changed)))
            ++ (map (fun hi => OpGoInstance hi.1 hi.2 EventAdd)
                  (list_prod (instanceHandlers ex_wired) (snd (Spec ex_changed)))
                ++ map (fun i => OpGoInstance "audit" i EventAdd) (snd (Spec ex_changed)))).
Proof.
  apply (appended_handlers_are_dispatched_last fst snd ex_wired "audit" "audit" 1%Z
           ex_changed EventAdd).
  reflexivity.
Defined.

Lemma eventHandler_waits_for_the_lock_witness :
  eventHandler fst snd 1%Z ex_changed EventDelete ex_leaked = Halted Deadlock [].
Proof.
  apply (eventHandler_waits_for_the_lock fst snd ex_leaked 1%Z ex_changed EventDelete).
  cbn. discriminate.
Defined.


Lemma update_indexes_by_host_witness :
  exists (d' : ServiceEntryStore ExampleEntry string string) (tr : list (Op string string)),
    update snd ex_after_removal = Done tt d' tr
    /\ forall h : string,
         instances d' !! h
         = match filter (fun i => hostOf i = h)
                   (flat_map (fun config => snd (Spec config)) (store ex_after_removal)) with
           | [] => None
           | found => Some found
           end.
Proof.
  apply (update_indexes_by_host snd ex_after_removal); reflexivity.
Defined.

Lemma InstancesByPort_unknown_host_is_empty_witness :
  exists d' tr,
    InstancesByPort snd "s2.example" 8080 [] ex_after_removal = Done ([], None) d' tr.
Proof.
  apply (InstancesByPort_unknown_host_is_empty snd ex_after_removal "s2.example" 8080 []);
    [reflexivity|reflexivity|].
  cbn. repeat constructor; cbn; discriminate.
Defined.

Lemma InstancesByPort_agrees_with_Instances_witness :
  exists (found : list ServiceInstance)
    (d' : ServiceEntryStore ExampleEntry string string) (tr : list (Op string string)),
    InstancesByPort snd "s1.example" 0 [ {[ "env" := "prod" ]} ] ex_store
    = Done (found, None) d' tr
    /\ Instances snd "s1.example" [] [ {[ "env" := "prod" ]} ] ex_store
       = Done (found, None) ex_store [OpServiceEntries].
Proof.
  apply (InstancesByPort_agrees_with_Instances snd ex_store "s1.example"
           [ {[ "env" := "prod" ]} ]); reflexivity.
Defined.

Lemma Instances_port_names_as_set_witness :
  Instances snd "s1.example" ["http"; "https"] [] ex_store
  = Instances snd "s1.example" ["https"; "http"; "http"] [] ex_store.
Proof.
  apply (Instances_port_names_as_set snd ex_store "s1.example"
           ["http"; "https"] ["https"; "http"; "http"] []).
  intros name. rewrite !elem_of_cons, !elem_of_nil. tauto.
Defined.

Lemma GetProxyServiceInstances_returns_last_instance_witness :
  exists (d' : ServiceEntryStore ExampleEntry string string) (tr : list (Op string string)),
    GetProxyServiceInstances snd {| IPAddress := "10.0.0.1" |} ex_store
    = Done ([ex_https], None) d' tr.
Proof.
  apply (GetProxyServiceInstances_returns_last_instance snd ex_store
           {| IPAddress := "10.0.0.1" |} [ex_http] ex_https [ex_other]).
  - reflexivity.
  - reflexivity.
  - reflexivity.
  - reflexivity.
  - repeat constructor; cbn; discriminate.
  - repeat constructor; cbn; discriminate.
Defined.

Lemma update_not_stale_keeps_shared_hold_witness :
  exists d' : ServiceEntryStore ExampleEntry string string,
    update snd ex_clean = Done tt d' [OpRLock; OpReadUpdateNeeded false]
    /\ instances d' = instances ex_clean
    /\ ip2instance d' = ip2instance ex_clean
    /\ store d' = store ex_clean
    /\ updateNeeded d' = false
    /\ storeMutex d' = {| readers := S (readers (storeMutex ex_clean)); writer := false |}
    /\ forall (now : Time) (config : Config ExampleEntry) (event : Event),
         eventHandler fst snd now config event d' = Halted Deadlock [].
Proof.
  apply (update_not_stale_keeps_shared_hold fst snd ex_clean); reflexivity.
Defined.

Lemma index_queries_not_stale_serve_the_maps_witness :
  exists d' : ServiceEntryStore ExampleEntry string string,
    GetProxyServiceInstances snd {| IPAddress := "10.0.0.2" |} ex_leaked
    = Done (default [] (ip2instance ex_leaked !! "10.0.0.2"), None) d'
        [OpRLock; OpReadUpdateNeeded false; OpRLock; OpRUnlock]
    /\ instances d' = instances ex_leaked /\ ip2instance d' = ip2instance ex_leaked
    /\ storeMutex d' = {| readers := S (readers (storeMutex ex_leaked)); writer := false |}.
Proof.
  apply (proj1 (index_queries_not_stale_serve_the_maps snd ex_leaked eq_refl eq_refl)
           {| IPAddress := "10.0.0.2" |}).
Defined.

Lemma flag_up_and_mutex_free_between_calls_witness :
  updateNeeded ex_after_removal = true /\ storeMutex ex_after_removal = unlocked.
Proof.
  apply (flag_up_and_mutex_free_between_calls fst snd ex_after_removal).
  exact ex_after_removal_reachable.
Defined.

Lemma calls_return_in_every_reachable_state_witness :
  exists d' tr, eventHandler fst snd 7%Z ex_second EventDelete ex_after_removal = Done tt d' tr.
Proof.
  apply (calls_return_in_every_reachable_state fst snd ex_after_removal
           ex_after_removal_reachable).
Defined.

Lemma InstancesByPort_follows_the_store_witness :
  exists (d' : ServiceEntryStore ExampleEntry string string) (tr : list (Op string string)),
    InstancesByPort snd "s2.example" 0 [] ex_after_removal
    = Done (filter (fun i =>
                      hostOf i = "s2.example"%string
                      /\ (0%Z = 0%Z
                          \/ 0%Z = Port_Port (Endpoint_ServicePort (Instance_Endpoint i)))
                      /\ HasSubsetOf [] (Instance_Labels i))
              (flat_map (fun config => snd (Spec config)) (store ex_after_removal)), None)
        d' tr.
Proof.
  apply (InstancesByPort_follows_the_store fst snd ex_after_removal "s2.example" 0 []).
  exact ex_after_removal_reachable.
Defined.

Lemma index_queries_repeat_witness :
  exists r (d1 : ServiceEntryStore ExampleEntry string string) (tr : list (Op string string)),
    GetProxyServiceInstances snd {| IPAddress := "10.0.0.1" |} ex_store = Done r d1 tr
    /\ GetProxyServiceInstances snd {| IPAddress := "10.0.0.1" |} d1 = Done r d1 tr.
Proof.
  apply (proj1 (index_queries_repeat snd ex_store eq_refl eq_refl)
           {| IPAddress := "10.0.0.1" |}).
Defined.
